(** * The Azure OAuth2 passport strategy ([lib/strategy.js])

    A shallow embedding of the strategy's constructor and of its three
    hooks ([authorizationParams], [tokenParams], [userProfile]) over a small
    model of the JavaScript runtime they run on: values and heap objects,
    exceptions, the global scope, and the built-ins the code calls
    ([String.prototype.split], [Buffer], [JSON.parse], the [+] and [||]
    operators). The two other hooks, [authenticate] and
    [parseErrorResponse], only pass their arguments on to the methods they
    inherit from passport-oauth2. *)

From Stdlib Require Import ZArith Ascii String List.
From stdpp Require Import base gmap strings list pretty.

Local Open Scope string_scope.
Local Open Scope Z_scope.

(** ** Runtime values *)

Module JS.

(** A finite Number is written as the decimal [m * 10^e] that
    [Number::toString] prints for it (the strategy does no arithmetic:
    numbers are only tested for truthiness and printed by [+]). The Number
    that a numeral of a JSON text denotes, rounded to binary64, is
    [number_of_numeral] below. *)
Inductive number :=
  | NaN
  | Infinity (negative : bool)
  | Decimal (m e : Z).

Definition loc := positive.

(** A JavaScript string is represented by the bytes of its UTF-8 encoding. *)
Inductive value :=
  | VUndefined
  | VNull
  | VBool (b : bool)
  | VNumber (n : number)
  | VString (s : string)
  | VRef (l : loc).

(** A heap object: its named own properties and, for an array, its
    elements. Property values are data (never callable). *)
Record cell := Cell { elems : option (list value); props : gmap string value }.

Record world := World { heap : gmap loc cell; globals : gmap string value }.

Inductive exn :=
  | TypeError
  | SyntaxError
  | ReferenceError (name : string)
  | Raised (v : value).

Inductive outcome (A : Type) :=
  | Ok (a : A)
  | Throw (e : exn).
Arguments Ok {A} a.
Arguments Throw {A} e.

(** What an observer outside the strategy sees, in order: console output,
    invocations of the profile callback and of the OAuth2 delegate, each
    with the world as it was when the call was made. *)
Inductive event :=
  | Log (msg : string)
  | Call (err profile : value) (w : world)
  | Delegate (this options verify : value) (w : world).

Definition state : Type := world * list event.

(** ** The monad of JavaScript statements: state and exceptions *)

Definition M (A : Type) : Type := state → outcome A * state.

Definition ret {A} (a : A) : M A := λ st, (Ok a, st).

Definition bind {A B} (c : M A) (k : A → M B) : M B :=
  λ st, match c st with
        | (Ok a, st') => k a st'
        | (Throw e, st') => (Throw e, st')
        end.

Definition throw {A} (e : exn) : M A := λ st, (Throw e, st).

Definition try_catch {A} (body : M A) (handler : exn → M A) : M A :=
  λ st, match body st with
        | (Ok a, st') => (Ok a, st')
        | (Throw e, st') => handler e st'
        end.

Definition lift {A} (o : outcome A) : M A := λ st, (o, st).

Definition get_world : M world := λ st, (Ok (fst st), st).

Definition emit (ev : event) : M () := λ st, (Ok (), (fst st, (snd st ++ [ev])%list)).

(** Code outside the strategy (a callback, the delegate) acts on the world
    and cannot rewrite the trace. *)
Definition foreign : Type := world → outcome value * world.

Definition run_foreign (f : foreign) : M value :=
  λ st, let '(r, w) := f (fst st) in (r, (w, snd st)).

End JS.
Import JS.

#[global] Instance M_ret : MRet M := @ret.
#[global] Instance M_bind : MBind M := λ A B k c, bind c k.

(** ** Truthiness, property access, allocation *)

Module Heap.

Definition number_truthy (n : number) : bool :=
  match n with
  | NaN => false
  | Infinity _ => true
  | Decimal m _ => negb (m =? 0)
  end.

Definition truthy (v : value) : bool :=
  match v with
  | VUndefined | VNull => false
  | VBool b => b
  | VNumber n => number_truthy n
  | VString s => negb (String.eqb s EmptyString)
  | VRef _ => true
  end.

Definition digit_value (c : ascii) : option Z :=
  let n := Z.of_N (N_of_ascii c) in
  if (48 <=? n) && (n <=? 57) then Some (n - 48) else None.

Fixpoint digits_value (acc : Z) (s : string) : option Z :=
  match s with
  | EmptyString => Some acc
  | String c r => match digit_value c with
                  | Some d => digits_value (acc * 10 + d) r
                  | None => None
                  end
  end.

(** An array index is a property name that is the canonical decimal
    spelling of a natural number. *)
Definition array_index (k : string) : option nat :=
  match k with
  | EmptyString => None
  | _ => match digits_value 0 k with
         | Some n => if String.eqb (pretty (Z.to_N n)) k then Some (Z.to_nat n) else None
         | None => None
         end
  end.

Definition cell_get (c : cell) (k : string) : value :=
  match elems c with
  | Some xs =>
      match array_index k with
      | Some i => nth i xs VUndefined
      | None => if String.eqb k "length"
                then VNumber (Decimal (Z.of_nat (length xs)) 0)
                else default VUndefined (props c !! k)
      end
  | None => default VUndefined (props c !! k)
  end.

(** [o.k] once [o] is known not to be [undefined] or [null]. The property
    names the strategy reads are defined on no built-in prototype, so a
    primitive, and an object without the own property, yield [undefined]. *)
Definition field (w : world) (o : value) (k : string) : value :=
  match o with
  | VRef l => match heap w !! l with
              | Some c => cell_get c k
              | None => VUndefined
              end
  | _ => VUndefined
  end.

Definition getv (o : value) (k : string) : M value :=
  match o with
  | VUndefined | VNull => throw TypeError
  | _ => w ← get_world; ret (field w o k)
  end.

Definition cell_put (c : cell) (k : string) (v : value) : cell :=
  Cell (elems c) (<[k := v]> (props c)).

Definition store (l : loc) (k : string) (v : value) (w : world) : world :=
  match heap w !! l with
  | Some c => World (<[l := cell_put c k v]> (heap w)) (globals w)
  | None => w
  end.

(** [o.k = v] for an identifier [k]: a [TypeError] on [undefined] and
    [null], silently ignored on the other primitives (the file is not in
    strict mode). *)
Definition putv (o : value) (k : string) (v : value) : M () :=
  match o with
  | VUndefined | VNull => throw TypeError
  | VRef l => λ st, (Ok (), (store l k v (fst st), snd st))
  | _ => ret ()
  end.

Definition alloc (c : cell) : M value :=
  λ st, let w := fst st in
        let l := fresh (dom (heap w)) in
        (Ok (VRef l), (World (<[l := c]> (heap w)) (globals w), snd st)).

Definition new_object (m : gmap string value) : M value := alloc (Cell None m).
Definition new_array (xs : list value) : M value := alloc (Cell (Some xs) ∅).

(** A free identifier read in sloppy mode. *)
Definition global (x : string) : M value :=
  w ← get_world;
  match globals w !! x with
  | Some v => ret v
  | None => throw (ReferenceError x)
  end.

Definition console_log (msg : string) : M () := emit (Log msg).

End Heap.
Import Heap.

(** ** Built-ins on strings and bytes *)

Module Builtins.

Definition code (c : ascii) : Z := Z.of_N (N_of_ascii c).
Definition char (n : Z) : ascii := ascii_of_N (Z.to_N n).

Definition string_of (bs : list Z) : string := string_of_list_ascii (map char bs).

(** [s.split(sep)] for a one-character separator: never empty, and a
    string without the separator is the only segment. *)
Fixpoint split (sep : ascii) (s : string) : list string :=
  match s with
  | EmptyString => [EmptyString]
  | String c r =>
      if Ascii.eqb c sep then EmptyString :: split sep r
      else match split sep r with
           | x :: xs => String c x :: xs
           | [] => [String c EmptyString]
           end
  end.

(** [accessToken.split('.')[i]]: calling [split] on anything but a string
    is a [TypeError]; an index past the end reads [undefined]. *)
Definition split_index (v : value) (sep : ascii) (i : nat) : outcome value :=
  match v with
  | VString s => Ok (from_option VString VUndefined (split sep s !! i))
  | _ => Throw TypeError
  end.

(** *** [new Buffer(text, 'base64')]

    Node's decoder rejects nothing: it reads both the standard and the
    URL-safe alphabet, skips every other character and stops at the first
    padding character. *)
Definition unbase64 (c : ascii) : option Z :=
  let n := code c in
  if (65 <=? n) && (n <=? 90) then Some (n - 65)
  else if (97 <=? n) && (n <=? 122) then Some (n - 71)
  else if (48 <=? n) && (n <=? 57) then Some (n + 4)
  else if (n =? 43) || (n =? 45) then Some 62
  else if (n =? 47) || (n =? 95) then Some 63
  else None.

Fixpoint sextets (s : string) : list Z :=
  match s with
  | EmptyString => []
  | String c r =>
      if code c =? 61 then []
      else match unbase64 c with
           | Some v => v :: sextets r
           | None => sextets r
           end
  end.

Fixpoint octets (xs : list Z) : list Z :=
  match xs with
  | a :: b :: c :: d :: r =>
      Z.lor (Z.shiftl a 2) (Z.shiftr b 4)
      :: Z.lor (Z.shiftl (Z.land b 15) 4) (Z.shiftr c 2)
      :: Z.lor (Z.shiftl (Z.land c 3) 6) d
      :: octets r
  | [a; b; c] =>
      [Z.lor (Z.shiftl a 2) (Z.shiftr b 4);
       Z.lor (Z.shiftl (Z.land b 15) 4) (Z.shiftr c 2)]
  | [a; b] => [Z.lor (Z.shiftl a 2) (Z.shiftr b 4)]
  | _ => []
  end.

Definition base64_decode (s : string) : list Z := octets (sextets s).

(** The first argument must be a string: [new Buffer(undefined, 'base64')]
    is a [TypeError]. *)
Definition new_Buffer (v : value) : outcome (list Z) :=
  match v with
  | VString s => Ok (base64_decode s)
  | _ => Throw TypeError
  end.

(** *** [buffer.toString('utf-8')]

    Decoding never fails either: every maximal ill-formed byte sequence
    becomes one U+FFFD. *)
Record utf8_state := Utf8 { needed : nat; lower : Z; upper : Z; pending : list Z }.

Definition replacement : list Z := [239; 191; 189].

Definition utf8_lead (b : Z) : list Z * option utf8_state :=
  if b <=? 127 then ([b], None)
  else if (194 <=? b) && (b <=? 223) then ([], Some (Utf8 1 128 191 [b]))
  else if (224 <=? b) && (b <=? 239)
       then ([], Some (Utf8 2 (if b =? 224 then 160 else 128)
                              (if b =? 237 then 159 else 191) [b]))
  else if (240 <=? b) && (b <=? 244)
       then ([], Some (Utf8 3 (if b =? 240 then 144 else 128)
                              (if b =? 244 then 143 else 191) [b]))
  else (replacement, None).

Fixpoint utf8_decode (st : option utf8_state) (bs : list Z) : list Z :=
  match bs with
  | [] => match st with None => [] | Some _ => replacement end
  | b :: r =>
      match st with
      | None => let '(out, st') := utf8_lead b in out ++ utf8_decode st' r
      | Some s =>
          if (lower s <=? b) && (b <=? upper s) then
            match needed s with
            | O | S O => pending s ++ b :: utf8_decode None r
            | S n => utf8_decode (Some (Utf8 n 128 191 (pending s ++ [b]))) r
            end
          else let '(out, st') := utf8_lead b in
               replacement ++ out ++ utf8_decode st' r
      end
  end.

Definition Buffer_toString (buf : list Z) : string := string_of (utf8_decode None buf).

(** *** The Number that a decimal numeral denotes

    A numeral denotes the binary64 value nearest to it, a tie going to the
    even significand, and an infinity from [2^1024 - 2^970] on. The finite
    value is kept as the decimal that [Number::toString] prints for it:
    the one with the fewest digits that denotes this value and, of those,
    the nearest to it. *)

(** The integer nearest to [p / q], a tie going to the even one. *)
Definition round_even (p q : Z) : Z :=
  let n := p / q in
  let r := p mod q in
  if 2 * r <? q then n
  else if q <? 2 * r then n + 1
  else if Z.even n then n else n + 1.

(** [p / q < 2^x] *)
Definition below (p q x : Z) : bool :=
  if 0 <=? x then p <? q * 2 ^ x else p * 2 ^ (- x) <? q.

(** The binary64 value nearest to [p / q], both positive: the significand
    [n] and the exponent [k] of the value [n * 2^k], with [n] of 53 bits,
    or of fewer at the least exponent; [None] beyond the finite values. *)
Definition nearest (p q : Z) : option (Z * Z) :=
  let k0 := Z.log2 p - Z.log2 q - 52 in
  let k1 := if below p q (k0 + 52) then k0 - 1 else k0 in
  let k := Z.max k1 (-1074) in
  let n := if 0 <=? k then round_even p (q * 2 ^ k) else round_even (p * 2 ^ (- k)) q in
  let '(n, k) := if n =? 2 ^ 53 then (2 ^ 52, k + 1) else (n, k) in
  if 971 <? k then None else Some (n, k).

(** [m * 10^e] as a fraction, and [n * 2^k] as a decimal. *)
Definition scaled (m e : Z) : Z * Z :=
  if 0 <=? e then (m * 10 ^ e, 1) else (m, 10 ^ (- e)).

Definition exact (n k : Z) : Z * Z :=
  if 0 <=? k then (n * 2 ^ k, 0) else (n * 5 ^ (- k), k).

Definition denotes (s e : Z) (d : Z * Z) : bool :=
  let '(p, q) := scaled s e in bool_decide (nearest p q = Some d).

(** The decimal of [i] digits that denotes the value [d], whose exact
    decimal is [M * 10^E] with [M] of [L] digits: the nearer of the two
    that enclose the value, if it denotes it. *)
Definition candidate (d : Z * Z) (M E L i : Z) : option (Z * Z) :=
  if L <=? i then Some (M, E)
  else
    let cut := 10 ^ (L - i) in
    let lo := M / cut in
    let hi := lo + 1 in
    let e := E + (L - i) in
    match denotes lo e d, denotes hi e d with
    | true, true =>
        let dl := M - lo * cut in
        let dh := hi * cut - M in
        if dl <? dh then Some (lo, e)
        else if dh <? dl then Some (hi, e)
        else if Z.even lo then Some (lo, e) else Some (hi, e)
    | true, false => Some (lo, e)
    | false, true => Some (hi, e)
    | false, false => None
    end.

(** Seventeen digits tell any two binary64 values apart. *)
Fixpoint shortest (tries : nat) (d : Z * Z) (M E L i : Z) : Z * Z :=
  match tries with
  | O => (M, E)
  | S tries' =>
      match candidate d M E L i with
      | Some c => c
      | None => shortest tries' d M E L (i + 1)
      end
  end.

Definition number_of_numeral (negative : bool) (m e : Z) : number :=
  if m =? 0 then Decimal 0 0
  else
    let '(p, q) := scaled m e in
    match nearest p q with
    | None => Infinity negative
    | Some (n, k) =>
        if n =? 0 then Decimal 0 0
        else
          let '(M, E) := exact n k in
          let L := Z.of_nat (String.length (pretty (Z.to_N M))) in
          let '(s, j) := shortest 17 (n, k) M E L 1 in
          Decimal (if negative then - s else s) j
    end.

(** *** Number to string (ECMAScript Number::toString, radix 10) *)

Fixpoint strip_zeros (rev_digits : list ascii) : list ascii * Z :=
  match rev_digits with
  | c :: r => if code c =? 48
              then let '(ds, z) := strip_zeros r in (ds, z + 1)
              else (rev_digits, 0)
  | [] => ([], 0)
  end.

Definition zeros (n : Z) : string := string_of_list_ascii (replicate (Z.to_nat n) "0"%char).

Definition decimal_to_string (m e : Z) : string :=
  let '(rds, z) := strip_zeros (rev (list_ascii_of_string (pretty (Z.to_N (Z.abs m))))) in
  let ds := rev rds in
  let k := Z.of_nat (length ds) in
  let n := k + e + z in
  let digits := string_of_list_ascii ds in
  if (k <=? n) && (n <=? 21) then digits +:+ zeros (n - k)
  else if (0 <? n) && (n <=? 21)
       then string_of_list_ascii (take (Z.to_nat n) ds) +:+ "."
            +:+ string_of_list_ascii (drop (Z.to_nat n) ds)
  else if (-6 <? n) && (n <=? 0) then "0." +:+ zeros (- n) +:+ digits
  else let x := n - 1 in
       let exponent := (if x <? 0 then "e-" else "e+") +:+ pretty (Z.to_N (Z.abs x)) in
       match ds with
       | [d] => digits +:+ exponent
       | d :: rest => String d ("." +:+ string_of_list_ascii rest) +:+ exponent
       | [] => digits
       end.

Definition number_to_string (n : number) : string :=
  match n with
  | NaN => "NaN"
  | Infinity false => "Infinity"
  | Infinity true => "-Infinity"
  | Decimal m e =>
      if m =? 0 then "0"
      else if m <? 0 then "-" +:+ decimal_to_string m e
      else decimal_to_string m e
  end.

(** *** ToString(ToPrimitive(v)), as the [+] operator applies it

    An ordinary object prints through [Object.prototype.toString]; an own
    (data) property named [toString] shadows it and, not being callable,
    makes the conversion a [TypeError]. An array prints its elements joined
    by commas, [undefined] and [null] as nothing, and an array met again
    inside itself as nothing. *)
Fixpoint to_string_aux (fuel : nat) (h : gmap loc cell) (seen : list loc) (v : value)
  : outcome string :=
  match v with
  | VUndefined => Ok "undefined"
  | VNull => Ok "null"
  | VBool true => Ok "true"
  | VBool false => Ok "false"
  | VNumber n => Ok (number_to_string n)
  | VString s => Ok s
  | VRef l =>
      match h !! l with
      | None => Ok "[object Object]"
      | Some c =>
          if bool_decide (is_Some (props c !! "toString")) then Throw TypeError
          else match elems c with
               | None => Ok "[object Object]"
               | Some xs =>
                   if bool_decide (is_Some (props c !! "join")) then Ok "[object Array]"
                   else if bool_decide (l ∈ seen) then Ok EmptyString
                   else match fuel with
                        | O => Ok EmptyString
                        | S fuel' =>
                            (fix join (xs : list value) : outcome string :=
                               match xs with
                               | [] => Ok EmptyString
                               | x :: r =>
                                   match (match x with
                                          | VUndefined | VNull => Ok EmptyString
                                          | _ => to_string_aux fuel' h (l :: seen) x
                                          end), r with
                                   | Throw e, _ => Throw e
                                   | Ok s, [] => Ok s
                                   | Ok s, _ =>
                                       match join r with
                                       | Ok t => Ok (s +:+ "," +:+ t)
                                       | Throw e => Throw e
                                       end
                                   end
                               end) xs
                        end
               end
      end
  end.

(** Every nested array met on the way down is a distinct heap cell, so the
    size of the heap bounds the depth. *)
Definition to_string (v : value) : M string :=
  λ st, (to_string_aux (size (heap (fst st))) (heap (fst st)) [] v, st).

(** [a + b] when one operand is a string: concatenation. *)
Definition str_add (a b : value) : M value :=
  s ← to_string a;
  t ← to_string b;
  mret (VString (s +:+ t)).

End Builtins.
Import Builtins.

(** ** [JSON.parse]

    The text is read one character at a time by a pushdown automaton: the
    stack holds the arrays and objects still open, the mode says what the
    grammar admits next. *)

Module JSON.

#[local] Unset Elimination Schemes.
Inductive json :=
  | JNull
  | JBool (b : bool)
  | JNumber (n : number)
  | JString (s : string)
  | JArray (xs : list json)
  | JObject (ms : list (string * json)).
#[local] Set Elimination Schemes.

(** An open container, with what it holds so far (last first). *)
Inductive frame :=
  | FArray (items : list json)
  | FObject (members : list (string * json)) (key : option string).

Inductive expect :=
  | EValue
  | EValueOrClose
  | EKeyOrClose
  | EKey
  | EColon
  | EAfter.

(** A character of a string literal: a byte of the text, or the UTF-16 code
    unit of a [\uXXXX] escape. *)
Inductive item :=
  | Raw (c : ascii)
  | Unit (u : Z).

Inductive numpos := NMinus | NZero | NInt | NDot | NFrac | NExp | NExpSign | NExpDigits.

Record numacc := Num { neg : bool; mant : Z; scale : Z; eneg : bool; expo : Z }.

Inductive mode :=
  | Idle (e : expect)
  | InString (key : bool) (acc : list item)
  | InEscape (key : bool) (acc : list item)
  | InUnicode (key : bool) (acc : list item) (n : nat) (u : Z)
  | InLiteral (rest : list ascii) (v : json)
  | InNumber (p : numpos) (a : numacc).

Record config := Config { cmode : mode; stack : list frame; result : option json }.

Definition is_ws (c : ascii) : bool :=
  let n := code c in (n =? 9) || (n =? 10) || (n =? 13) || (n =? 32).

(** A finished value goes into the innermost open container, or is the
    result. *)
Definition push (v : json) (stk : list frame) : option config :=
  match stk with
  | [] => Some (Config (Idle EAfter) [] (Some v))
  | FArray items :: r => Some (Config (Idle EAfter) (FArray (v :: items) :: r) None)
  | FObject ms (Some k) :: r =>
      Some (Config (Idle EAfter) (FObject ((k, v) :: ms) None :: r) None)
  | FObject _ None :: _ => None
  end.

Definition close_array (stk : list frame) : option config :=
  match stk with
  | FArray items :: r => push (JArray (rev items)) r
  | _ => None
  end.

Definition close_object (stk : list frame) : option config :=
  match stk with
  | FObject ms None :: r => push (JObject (rev ms)) r
  | _ => None
  end.

Definition start_value (c : ascii) (stk : list frame) : option config :=
  let n := code c in
  if n =? 123 then Some (Config (Idle EKeyOrClose) (FObject [] None :: stk) None)
  else if n =? 91 then Some (Config (Idle EValueOrClose) (FArray [] :: stk) None)
  else if n =? 34 then Some (Config (InString false []) stk None)
  else if n =? 45 then Some (Config (InNumber NMinus (Num true 0 0 false 0)) stk None)
  else if n =? 48 then Some (Config (InNumber NZero (Num false 0 0 false 0)) stk None)
  else if (49 <=? n) && (n <=? 57)
       then Some (Config (InNumber NInt (Num false (n - 48) 0 false 0)) stk None)
  else if n =? 116 then Some (Config (InLiteral (list_ascii_of_string "rue") (JBool true)) stk None)
  else if n =? 102 then Some (Config (InLiteral (list_ascii_of_string "alse") (JBool false)) stk None)
  else if n =? 110 then Some (Config (InLiteral (list_ascii_of_string "ull") JNull) stk None)
  else None.

Definition idle (e : expect) (c : ascii) (cfg : config) : option config :=
  let n := code c in
  let stk := stack cfg in
  if is_ws c then Some cfg
  else match e with
       | EValue => start_value c stk
       | EValueOrClose => if n =? 93 then close_array stk else start_value c stk
       | EKeyOrClose =>
           if n =? 125 then close_object stk
           else if n =? 34 then Some (Config (InString true []) stk None)
           else None
       | EKey => if n =? 34 then Some (Config (InString true []) stk None) else None
       | EColon => if n =? 58 then Some (Config (Idle EValue) stk None) else None
       | EAfter =>
           if n =? 44 then
             match stk with
             | FArray _ :: _ => Some (Config (Idle EValue) stk None)
             | FObject _ None :: _ => Some (Config (Idle EKey) stk None)
             | _ => None
             end
           else if n =? 93 then close_array stk
           else if n =? 125 then close_object stk
           else None
       end.

Definition utf8_encode (cp : Z) : list Z :=
  if cp <? 128 then [cp]
  else if cp <? 2048 then [Z.lor 192 (Z.shiftr cp 6); Z.lor 128 (Z.land cp 63)]
  else if cp <? 65536
       then [Z.lor 224 (Z.shiftr cp 12); Z.lor 128 (Z.land (Z.shiftr cp 6) 63);
             Z.lor 128 (Z.land cp 63)]
  else [Z.lor 240 (Z.shiftr cp 18); Z.lor 128 (Z.land (Z.shiftr cp 12) 63);
        Z.lor 128 (Z.land (Z.shiftr cp 6) 63); Z.lor 128 (Z.land cp 63)].

(** Escaped surrogate pairs combine into one code point. *)
Fixpoint string_bytes (xs : list item) : list Z :=
  match xs with
  | [] => []
  | Raw c :: r => code c :: string_bytes r
  | Unit hi :: r =>
      match r with
      | Unit lo :: r' =>
          if (55296 <=? hi) && (hi <=? 56319) && (56320 <=? lo) && (lo <=? 57343)
          then utf8_encode (65536 + Z.shiftl (hi - 55296) 10 + (lo - 56320)) ++ string_bytes r'
          else utf8_encode hi ++ string_bytes r
      | _ => utf8_encode hi ++ string_bytes r
      end
  end.

Definition end_string (key : bool) (acc : list item) (stk : list frame) : option config :=
  let s := string_of (string_bytes (rev acc)) in
  if key then
    match stk with
    | FObject ms None :: r => Some (Config (Idle EColon) (FObject ms (Some s) :: r) None)
    | _ => None
    end
  else push (JString s) stk.

Definition hex_value (c : ascii) : option Z :=
  let n := code c in
  if (48 <=? n) && (n <=? 57) then Some (n - 48)
  else if (65 <=? n) && (n <=? 70) then Some (n - 55)
  else if (97 <=? n) && (n <=? 102) then Some (n - 87)
  else None.

Definition escape (c : ascii) : option Z :=
  let n := code c in
  if (n =? 34) || (n =? 92) || (n =? 47) then Some n
  else if n =? 98 then Some 8
  else if n =? 102 then Some 12
  else if n =? 110 then Some 10
  else if n =? 114 then Some 13
  else if n =? 116 then Some 9
  else None.

(** The numeral read is [mant * 10^(expo - scale)], with its signs. *)
Definition number_value (a : numacc) : json :=
  JNumber (number_of_numeral (neg a) (mant a)
             ((if eneg a then - expo a else expo a) - scale a)).

Definition end_number (a : numacc) (stk : list frame) : option config :=
  push (number_value a) stk.

(** The character that ends a number belongs to what follows it. *)
Definition after_number (a : numacc) (c : ascii) (stk : list frame) : option config :=
  cfg ← end_number a stk; idle EAfter c cfg.

Definition in_number (p : numpos) (a : numacc) (c : ascii) (stk : list frame)
  : option config :=
  let n := code c in
  let digit := (48 <=? n) && (n <=? 57) in
  let d := n - 48 in
  let exponent := (n =? 101) || (n =? 69) in
  let go p a := Some (Config (InNumber p a) stk None) in
  match p with
  | NMinus =>
      if n =? 48 then go NZero a
      else if digit then go NInt (Num (neg a) d 0 false 0)
      else None
  | NZero =>
      if n =? 46 then go NDot a
      else if exponent then go NExp a
      else after_number a c stk
  | NInt =>
      if digit then go NInt (Num (neg a) (mant a * 10 + d) 0 false 0)
      else if n =? 46 then go NDot a
      else if exponent then go NExp a
      else after_number a c stk
  | NDot =>
      if digit then go NFrac (Num (neg a) (mant a * 10 + d) (scale a + 1) false 0)
      else None
  | NFrac =>
      if digit then go NFrac (Num (neg a) (mant a * 10 + d) (scale a + 1) false 0)
      else if exponent then go NExp a
      else after_number a c stk
  | NExp =>
      if n =? 43 then go NExpSign a
      else if n =? 45 then go NExpSign (Num (neg a) (mant a) (scale a) true 0)
      else if digit then go NExpDigits (Num (neg a) (mant a) (scale a) (eneg a) d)
      else None
  | NExpSign =>
      if digit then go NExpDigits (Num (neg a) (mant a) (scale a) (eneg a) d)
      else None
  | NExpDigits =>
      if digit then go NExpDigits (Num (neg a) (mant a) (scale a) (eneg a) (expo a * 10 + d))
      else after_number a c stk
  end.

Definition step (cfg : config) (c : ascii) : option config :=
  let stk := stack cfg in
  match cmode cfg with
  | Idle e => idle e c cfg
  | InString key acc =>
      if code c =? 34 then end_string key acc stk
      else if code c =? 92 then Some (Config (InEscape key acc) stk None)
      else if code c <? 32 then None
      else Some (Config (InString key (Raw c :: acc)) stk None)
  | InEscape key acc =>
      if code c =? 117 then Some (Config (InUnicode key acc 4 0) stk None)
      else e ← escape c; Some (Config (InString key (Raw (char e) :: acc)) stk None)
  | InUnicode key acc n u =>
      h ← hex_value c;
      match n with
      | O | S O => Some (Config (InString key (Unit (u * 16 + h) :: acc)) stk None)
      | S n' => Some (Config (InUnicode key acc n' (u * 16 + h)) stk None)
      end
  | InLiteral rest v =>
      match rest with
      | [] => None
      | x :: r =>
          if Ascii.eqb c x
          then match r with
               | [] => push v stk
               | _ => Some (Config (InLiteral r v) stk None)
               end
          else None
      end
  | InNumber p a => in_number p a c stk
  end.

Fixpoint steps (cfg : config) (cs : list ascii) : option config :=
  match cs with
  | [] => Some cfg
  | c :: r => cfg' ← step cfg c; steps cfg' r
  end.

Definition finish (cfg : config) : option json :=
  match cmode cfg with
  | Idle EAfter => match stack cfg with [] => result cfg | _ => None end
  | InNumber (NZero | NInt | NFrac | NExpDigits) a =>
      match stack cfg with [] => Some (number_value a) | _ => None end
  | _ => None
  end.

Definition parse (text : string) : option json :=
  cfg ← steps (Config (Idle EValue) [] None) (list_ascii_of_string text); finish cfg.

(** The parsed tree is built out of fresh heap objects; of two members
    with one name the later one stays. *)
Definition fresh_cell (c : cell) (h : gmap loc cell) : value * gmap loc cell :=
  let l := fresh (dom h) in (VRef l, <[l := c]> h).

Section Containers.
Variable reify : json → gmap loc cell → value * gmap loc cell.

Fixpoint reify_items (xs : list json) (h : gmap loc cell) : list value * gmap loc cell :=
  match xs with
  | [] => ([], h)
  | x :: r => let '(v, h1) := reify x h in
              let '(vs, h2) := reify_items r h1 in (v :: vs, h2)
  end.

Fixpoint reify_members (ms : list (string * json)) (m : gmap string value)
    (h : gmap loc cell) : gmap string value * gmap loc cell :=
  match ms with
  | [] => (m, h)
  | (k, x) :: r => let '(v, h1) := reify x h in reify_members r (<[k := v]> m) h1
  end.
End Containers.

Fixpoint reify (j : json) (h : gmap loc cell) : value * gmap loc cell :=
  match j with
  | JNull => (VNull, h)
  | JBool b => (VBool b, h)
  | JNumber n => (VNumber n, h)
  | JString s => (VString s, h)
  | JArray xs => let '(vs, h') := reify_items reify xs h in fresh_cell (Cell (Some vs) ∅) h'
  | JObject ms => let '(m, h') := reify_members reify ms ∅ h in fresh_cell (Cell None m) h'
  end.

Definition JSON_parse (text : string) : M value :=
  match parse text with
  | None => throw SyntaxError
  | Some j => λ st, let '(v, h) := reify j (heap (fst st)) in
                    (Ok v, (World h (globals (fst st)), snd st))
  end.

End JSON.
Import JSON.

(** ** The strategy *)

Module Strategy.

(** [a || b]: the right operand is evaluated only when the left one is
    falsy. *)
Definition or_else (a : value) (b : M value) : M value :=
  if truthy a then mret a else b.

Definition when (b : bool) (c : M ()) : M () :=
  if b then c else mret ().

(** A call out of the strategy is recorded with its arguments, then runs. *)
Definition invoke (done : value → value → foreign) (err profile : value) : M value :=
  w ← get_world;
  emit (Call err profile w);;
  run_foreign (done err profile).

Definition call_delegate (OAuth2Strategy : value → value → value → foreign)
    (this options verify : value) : M value :=
  w ← get_world;
  emit (Delegate this options verify w);;
  run_foreign (OAuth2Strategy this options verify).

(** [new Strategy(options, verify)], lines 42-50. [OAuth2Strategy] is the
    constructor of the passport-oauth2 package, which is not part of this
    repository. *)
Definition Strategy (OAuth2Strategy : value → value → value → foreign)
    (options verify : value) : M value :=
  this ← new_object ∅;
  options ← or_else options (new_object ∅);
  authorizationURL ← getv options "authorizationURL";
  authorizationURL ← or_else authorizationURL
    (tenantID ← getv options "tenantID";
     s ← str_add (VString "https://login.windows.net/") tenantID;
     str_add s (VString "/oauth2/authorize?api-version=1.0"));
  putv options "authorizationURL" authorizationURL;;
  tokenURL ← getv options "tokenURL";
  tokenURL ← or_else tokenURL
    (tenantID ← getv options "tenantID";
     s ← str_add (VString "https://login.windows.net/") tenantID;
     str_add s (VString "/oauth2/token?api-version=1.0"));
  putv options "tokenURL" tokenURL;;
  scopeSeparator ← getv options "scopeSeparator";
  scopeSeparator ← or_else scopeSeparator (mret (VString ","));
  putv options "scopeSeparator" scopeSeparator;;
  call_delegate OAuth2Strategy this options verify;;
  putv this "name" (VString "azure");;
  mret this.

(** Lines 75-108. *)
Definition authorizationParams (options : value) : M value :=
  params ← new_object ∅;
  domain_hint ← getv options "domain_hint";
  when (truthy domain_hint)
    (v ← getv options "domain_hint"; putv params "domain_hint" v);;
  login_hint ← getv options "login_hint";
  when (truthy login_hint)
    (v ← getv options "login_hint"; putv params "login_hint" v);;
  prompt ← getv options "prompt";
  when (truthy prompt)
    (v ← getv options "prompt"; putv params "prompt" v);;
  resource ← getv options "resource";
  when (truthy resource)
    (v ← getv options "resource"; putv params "resource" v);;
  mret params.

(** Lines 116-127. *)
Definition tokenParams (options : value) : M value :=
  params ← new_object ∅;
  resource ← getv options "resource";
  when (truthy resource)
    (v ← getv options "resource"; putv params "resource" v);;
  mret params.

(** Lines 147-172. The handler binds the exception as [exception] and then
    reads the free identifier [ex]. *)
Definition userProfile (this accessToken : value) (done : value → value → foreign)
  : M value :=
  name ← getv this "name";
  profile ← new_object {[ "provider" := name ]};
  try_catch
    (tokenBase64 ← lift (split_index accessToken "." 1);
     tokenBinary ← lift (new_Buffer tokenBase64);
     let tokenUTF8 := Buffer_toString tokenBinary in
     putv profile "utf8" (VString tokenUTF8);;
     tokenJson ← JSON_parse tokenUTF8;
     putv profile "json" tokenJson;;
     oid ← getv tokenJson "oid";
     putv profile "id" oid;;
     tid ← getv tokenJson "tid";
     putv profile "orgId" tid;;
     unique_name ← getv tokenJson "unique_name";
     putv profile "username" unique_name;;
     given_name ← getv tokenJson "given_name";
     s ← str_add given_name (VString " ");
     family_name ← getv tokenJson "family_name";
     displayname ← str_add s family_name;
     putv profile "displayname" displayname;;
     familyName ← getv tokenJson "family_name";
     givenName ← getv tokenJson "given_name";
     name ← new_object {[ "familyName" := familyName; "givenName" := givenName ]};
     putv profile "name" name;;
     email ← getv tokenJson "email";
     emails ← new_array [email];
     putv profile "emails" emails;;
     invoke done VNull profile)
    (λ exception,
       console_log "Unable to parse oauth2 token for user profile";;
       ex ← global "ex";
       invoke done ex VNull);;
  mret VUndefined.

End Strategy.
Import Strategy.

(** ** Notions used to state the properties *)

Module Notions.

(** [wp c st Q]: run from [st], the statement [c] ends in an outcome and a
    state that satisfy [Q]. *)
Definition wp {A} (c : M A) (st : state) (Q : outcome A → state → Prop) : Prop :=
  Q (c st).1 (c st).2.

Definition nullish (v : value) : bool :=
  match v with
  | VUndefined | VNull => true
  | _ => false
  end.

Definition primitive (v : value) : bool :=
  match v with
  | VRef _ => false
  | _ => true
  end.

(** What [+] prints for a primitive value. *)
Definition prim_string (v : value) : string :=
  match v with
  | VUndefined => "undefined"
  | VNull => "null"
  | VBool true => "true"
  | VBool false => "false"
  | VNumber n => number_to_string n
  | VString s => s
  | VRef _ => EmptyString
  end.

(** A reference, if the value is one, points into the heap. *)
Definition live (w : world) (v : value) : Prop :=
  match v with
  | VRef l => is_Some (heap w !! l)
  | _ => True
  end.

Definition hint_keys : list string := ["domain_hint"; "login_hint"; "prompt"; "resource"].

(** The effect of one [if (options.k) params.k = options.k;] on the
    properties [m] of [params]. *)
Definition pick (w : world) (options : value) (m : gmap string value) (k : string)
  : gmap string value :=
  let v := field w options k in if truthy v then <[k := v]> m else m.

(** The member of a JSON object that reading a property finds: the last
    one of that name. *)
Fixpoint member (k : string) (ms : list (string * json)) : option json :=
  match ms with
  | [] => None
  | (k', j) :: r =>
      match member k r with
      | Some j' => Some j'
      | None => if String.eqb k k' then Some j else None
      end
  end.

Definition json_prim (j : json) : option value :=
  match j with
  | JNull => Some VNull
  | JBool b => Some (VBool b)
  | JNumber n => Some (VNumber n)
  | JString s => Some (VString s)
  | JArray _ | JObject _ => None
  end.

(** A claim that is absent, or is not an array or an object. *)
Definition plain (ms : list (string * json)) (k : string) : bool :=
  match member k ms with
  | Some (JArray _) | Some (JObject _) => false
  | _ => true
  end.

(** The text that [userProfile] hands to [JSON.parse], when the token has
    a second segment. *)
Definition payload (tok : string) : option string :=
  (λ seg, Buffer_toString (base64_decode seg)) <$> (split "." tok !! 1%nat).

(** No second segment, a payload that is not JSON, or the JSON [null]. *)
Definition undecodable (tok : string) : bool :=
  match payload tok with
  | None => true
  | Some text => match parse text with
                 | None | Some JNull => true
                 | Some _ => false
                 end
  end.

Definition derived_url (c : cell) (k suffix : string) : value :=
  let v := cell_get c k in
  if truthy v then v
  else VString (("https://login.windows.net/" +:+ prim_string (cell_get c "tenantID"))
                +:+ suffix).

Definition separator (c : cell) : value :=
  let v := cell_get c "scopeSeparator" in if truthy v then v else VString ",".

(** The options object as the constructor leaves it. *)
Definition configured (c : cell) : cell :=
  cell_put
    (cell_put
       (cell_put c "authorizationURL"
          (derived_url c "authorizationURL" "/oauth2/authorize?api-version=1.0"))
       "tokenURL" (derived_url c "tokenURL" "/oauth2/token?api-version=1.0"))
    "scopeSeparator" (separator c).

Definition config_keys : list string := ["authorizationURL"; "tokenURL"; "scopeSeparator"].

(** [c'] is [c] except, possibly, for the properties named in [keys]. *)
Definition same_but (keys : list string) (c c' : cell) : Prop :=
  elems c' = elems c ∧ ∀ k, k ∉ keys → props c' !! k = props c !! k.

(** Objects already in the heap stay as they are. *)
Definition extends (h h' : gmap loc cell) : Prop :=
  ∀ l c, h !! l = Some c → h' !! l = Some c.

(** [tokenJson.k], for the properties [m] of [tokenJson]. *)
Definition claim (m : gmap string value) (k : string) : value :=
  default VUndefined (m !! k).

(** The properties of the profile when the callback receives it: [m] are
    the properties of the parsed claim set, which lives at [json]; [name]
    and [emails] are where the two inner objects live. *)
Definition profile_props (provider : value) (text : string) (m : gmap string value)
    (json name emails : loc) : gmap string value :=
  <["emails" := VRef emails]>
    (<["name" := VRef name]>
       (<["displayname" := VString ((prim_string (claim m "given_name") +:+ " ")
                                    +:+ prim_string (claim m "family_name"))]>
          (<["username" := claim m "unique_name"]>
             (<["orgId" := claim m "tid"]>
                (<["id" := claim m "oid"]>
                   (<["json" := VRef json]>
                      (<["utf8" := VString text]> {[ "provider" := provider ]}))))))).

Definition name_props (m : gmap string value) : gmap string value :=
  {[ "familyName" := claim m "family_name"; "givenName" := claim m "given_name" ]}.

End Notions.
Import Notions.

(** ** Sample inputs *)

Module Samples.

(** A world whose only object, at location 1, is [c]. *)
Definition world_of (c : cell) : world := World {[ 1%positive := c ]} ∅.

(** The same object at another place, among other things. *)
Definition other_world (c : cell) : world :=
  World {[ 2%positive := Cell (Some [VNull]) ∅; 5%positive := c ]} {[ "ex" := VNull ]}.

(** [{domain_hint: "x", prompt: "login"}] *)
Definition options_hints : cell :=
  Cell None {[ "domain_hint" := VString "x"; "prompt" := VString "login" ]}.

(** [{resource: "r"}] *)
Definition options_resource : cell := Cell None {[ "resource" := VString "r" ]}.

(** [{domain_hint: EmptyString}] and [{resource: EmptyString}] *)
Definition options_empty_domain_hint : cell :=
  Cell None {[ "domain_hint" := VString EmptyString ]}.
Definition options_empty_resource : cell :=
  Cell None {[ "resource" := VString EmptyString ]}.

(** An object whose [domain_hint] and [resource] are the empty string. *)
Definition options_empty_hints : cell :=
  Cell None {[ "domain_hint" := VString EmptyString; "resource" := VString EmptyString ]}.

(** A strategy instance, as the constructor leaves it, at location 1. *)
Definition world_strategy : world := world_of (Cell None {[ "name" := VString "azure" ]}).

(** A callback that returns, and one that throws what it is given. *)
Definition returns : value → value → foreign := λ _ _ w, (Ok VUndefined, w).
Definition rethrows : value → value → foreign := λ err _ w, (Throw (Raised err), w).

(** Three segments; the second is the base64 text of a JSON object with the
    six claims: oid o1, tid t1, unique_name ann@example.net, given_name Ann,
    family_name Lee, email ann@example.org. *)
Definition token_full : string :=
  "h.eyJvaWQiOiJvMSIsInRpZCI6InQxIiwidW5pcXVlX25hbWUiOiJhbm5AZXhhbXBsZS5uZXQiLCJnaXZlbl9uYW1lIjoiQW5uIiwiZmFtaWx5X25hbWUiOiJMZWUiLCJlbWFpbCI6ImFubkBleGFtcGxlLm9yZyJ9.s".

Definition claims_full : list (string * json) :=
  [("oid", JString "o1"); ("tid", JString "t1"); ("unique_name", JString "ann@example.net");
   ("given_name", JString "Ann"); ("family_name", JString "Lee");
   ("email", JString "ann@example.org")].

(** The payload is the base64 text of a JSON object with the one claim
    oid o1. *)
Definition token_oid_only : string := "h.eyJvaWQiOiJvMSJ9.s".

(** One segment; a payload outside the base64 alphabet; the base64 text of
    [not json]. *)
Definition token_one_segment : string := "abc".
Definition token_bad_base64 : string := "h.!!!.s".
Definition token_not_json : string := "h.bm90IGpzb24=.s".

(** A stand-in for the passport-oauth2 constructor: like it, it throws a
    [TypeError] when the options have no [clientID], and it leaves the heap
    alone. *)
Definition delegate_stub : value → value → value → foreign :=
  λ this options verify w,
    if truthy (field w options "clientID") then (Ok VUndefined, w) else (Throw TypeError, w).

(** [{tenantID: "T", clientID: "id", extra: true}] *)
Definition options_tenant : cell :=
  Cell None {[ "tenantID" := VString "T"; "clientID" := VString "id"; "extra" := VBool true ]}.

(** The same with the empty string as both URLs and as separator. *)
Definition options_empty_strings : cell :=
  Cell None {[ "tenantID" := VString "T"; "clientID" := VString "id";
               "authorizationURL" := VString EmptyString;
               "tokenURL" := VString EmptyString;
               "scopeSeparator" := VString EmptyString ]}.

(** Explicit URLs and separator. *)
Definition options_explicit : cell :=
  Cell None {[ "tenantID" := VString "T"; "clientID" := VString "id";
               "authorizationURL" := VString "https://a.example/authorize";
               "tokenURL" := VString "https://a.example/token";
               "scopeSeparator" := VString " " ]}.

End Samples.
Import Samples.

(** ** Further notions and samples *)

Module More.

Fixpoint no_dot (s : string) : bool :=
  match s with
  | EmptyString => true
  | String c r => negb (Ascii.eqb c ".") && no_dot r
  end.

(** What the handler of [userProfile], and the [return] after it, do from
    the world [w] and the trace [tr]. *)
Definition handled (done : value → value → foreign) (w : world) (tr : list event)
  : outcome value * state :=
  let tr' := (tr ++ [Log "Unable to parse oauth2 token for user profile"])%list in
  match globals w !! "ex" with
  | None => (Throw (ReferenceError "ex"), (w, tr'))
  | Some x =>
      let r := done x VNull w in
      (match r.1 with Ok _ => Ok VUndefined | Throw e => Throw e end,
       (r.2, (tr' ++ [Call x VNull w])%list))
  end.

(** A parsed value other than [null] whose name claims, if it is an object
    and has them, are not arrays or objects. *)
Definition claim_set (j : json) : bool :=
  match j with
  | JNull => false
  | JObject ms => plain ms "given_name" && plain ms "family_name"
  | _ => true
  end.

Definition is_object (j : json) : bool :=
  match j with
  | JObject _ => true
  | _ => false
  end.

(** The six claims that [userProfile] consumes. *)
Definition claim_names : list string :=
  ["oid"; "tid"; "unique_name"; "given_name"; "family_name"; "email"].

(** What the value [v] found under a claim holds, for the members [ms] of
    the claim set: [undefined] for a claim that is missing, the claim's
    value for one that is a string, a number, a boolean or [null]. *)
Definition carries (ms : list (string * json)) (k : string) (v : value) : Prop :=
  match member k ms with
  | None => v = VUndefined
  | Some x => ∀ q, json_prim x = Some q → v = q
  end.

(** What reading the six claims off the parsed value gives: [rd k] is
    [tokenJson.k]. A value that is not an object has none of them. *)
Definition reads (j : json) (rd : string → value) : Prop :=
  ∀ k, k ∈ claim_names →
    match j with
    | JObject ms => carries ms k (rd k)
    | _ => rd k = VUndefined
    end.

(** The value [v] of a URL option once the constructor has assigned it:
    the supplied one when that is truthy, and otherwise the prefix, the
    tenant as [+] prints it, and the suffix. *)
Definition url_set (c : cell) (k suffix : string) (v : value) : Prop :=
  if truthy (cell_get c k) then v = cell_get c k
  else ∃ s, v = VString (("https://login.windows.net/" +:+ s) +:+ suffix) ∧
            (primitive (cell_get c "tenantID") = true →
             s = prim_string (cell_get c "tenantID")).

(** The profile as [userProfile] builds it from [tokenJson], read in the
    world [w]. *)
Definition profile_of (w : world) (profile tokenJson provider : value) (text : string)
  : Prop :=
  field w profile "provider" = provider ∧
  field w profile "utf8" = VString text ∧
  field w profile "json" = tokenJson ∧
  field w profile "id" = field w tokenJson "oid" ∧
  field w profile "orgId" = field w tokenJson "tid" ∧
  field w profile "username" = field w tokenJson "unique_name" ∧
  field w profile "displayname"
    = VString ((prim_string (field w tokenJson "given_name") +:+ " ")
               +:+ prim_string (field w tokenJson "family_name")) ∧
  field w profile "displayName" = VUndefined ∧
  field w (field w profile "name") "givenName" = field w tokenJson "given_name" ∧
  field w (field w profile "name") "familyName" = field w tokenJson "family_name" ∧
  field w (field w profile "emails") "0" = field w tokenJson "email" ∧
  field w (field w profile "emails") "length" = VNumber (Decimal 1 0).

(** A token is decoded, or not, as a value: anything but a string is not. *)
Definition fails_to_decode (accessToken : value) : bool :=
  match accessToken with
  | VString tok => undecodable tok
  | _ => true
  end.

(** A world in which a global variable [ex] exists, holding [x]. *)
Definition world_with_ex (x : value) : world :=
  World {[ 1%positive := Cell None {[ "name" := VString "azure" ]} ]} {[ "ex" := x ]}.

(** Tokens whose payload is the base64 text of [42], and of an object
    whose [oid] is itself an object. *)
Definition token_number : string := "h.NDI=.s".
Definition token_nested : string := "h.eyJvaWQiOnsiYSI6MX0sImdpdmVuX25hbWUiOiJBbm4ifQ==.s".

(** [token_full] with another header, and without a signature. *)
Definition token_full_unsigned : string :=
  "other.eyJvaWQiOiJvMSIsInRpZCI6InQxIiwidW5pcXVlX25hbWUiOiJhbm5AZXhhbXBsZS5uZXQiLCJnaXZlbl9uYW1lIjoiQW5uIiwiZmFtaWx5X25hbWUiOiJMZWUiLCJlbWFpbCI6ImFubkBleGFtcGxlLm9yZyJ9".

(** A delegate that names its receiver, as the passport-oauth2 constructor
    does. *)
Definition delegate_naming : value → value → value → foreign :=
  λ this options verify w,
    match this with
    | VRef t => (Ok VUndefined, store t "name" (VString "oauth2") w)
    | _ => (Ok VUndefined, w)
    end.


(** The payload is the base64 text of [{oid: 9007199254740993}], a number
    that is no binary64 value. *)
Definition token_big_oid : string := "h.eyJvaWQiOjkwMDcxOTkyNTQ3NDA5OTN9.s".

(** Options, at location 1, whose [tenantID] is an object with a
    [toString] property that is not a function: [{tenantID: {toString: 1}}]. *)
Definition world_unprintable_tenant : world :=
  World {[ 1%positive := Cell None {[ "tenantID" := VRef 2%positive ]};
           2%positive := Cell None {[ "toString" := VNumber (Decimal 1 0) ]} ]} ∅.

End More.
Import More.

(** ** Rules of the weakest-precondition calculus *)

Module Logic.

Lemma wp_run {A} (c : M A) st Q :
  wp c st Q → ∃ r st', c st = (r, st') ∧ Q r st'.
Proof. unfold wp. destruct (c st) as [r st']. eauto. Qed.

Lemma wp_ret {A} (a : A) st Q : Q (Ok a) st → wp (mret a) st Q.
Proof. done. Qed.

Lemma wp_lift {A} (o : outcome A) st Q : Q o st → wp (lift o) st Q.
Proof. done. Qed.

Lemma wp_bind {A B} (c : M A) (k : A → M B) st Q :
  wp c st (λ r st', match r with
                    | Ok a => wp (k a) st' Q
                    | Throw e => Q (Throw e) st'
                    end) →
  wp (c ≫= k) st Q.
Proof.
  unfold wp, mbind, M_bind, bind. by destruct (c st) as [[a|e] st'].
Qed.

Lemma wp_try_catch {A} (body : M A) handler st Q :
  wp body st (λ r st', match r with
                       | Ok a => Q (Ok a) st'
                       | Throw e => wp (handler e) st' Q
                       end) →
  wp (try_catch body handler) st Q.
Proof.
  unfold wp, try_catch. by destruct (body st) as [[a|e] st'].
Qed.

Lemma wp_emit ev w tr Q : Q (Ok ()) (w, (tr ++ [ev])%list) → wp (emit ev) (w, tr) Q.
Proof. done. Qed.

Lemma wp_getv o k w tr Q :
  (if nullish o then Q (Throw TypeError) (w, tr) else Q (Ok (field w o k)) (w, tr)) →
  wp (getv o k) (w, tr) Q.
Proof. by destruct o. Qed.

Lemma wp_putv l k v c w tr Q :
  heap w !! l = Some c →
  Q (Ok ()) (World (<[l := cell_put c k v]> (heap w)) (globals w), tr) →
  wp (putv (VRef l) k v) (w, tr) Q.
Proof. intros H HQ. unfold wp, putv, store; cbn. by rewrite H. Qed.

Lemma wp_alloc c w tr Q :
  (∀ l, heap w !! l = None →
        Q (Ok (VRef l)) (World (<[l := c]> (heap w)) (globals w), tr)) →
  wp (alloc c) (w, tr) Q.
Proof. intros H. apply H, not_elem_of_dom, is_fresh. Qed.

Lemma wp_global x w tr Q :
  match globals w !! x with
  | Some v => Q (Ok v) (w, tr)
  | None => Q (Throw (ReferenceError x)) (w, tr)
  end →
  wp (global x) (w, tr) Q.
Proof.
  unfold wp, global, get_world, mbind, M_bind, bind; cbn. by destruct (globals w !! x).
Qed.

Lemma wp_invoke done err profile w tr Q :
  Q (done err profile w).1 ((done err profile w).2, (tr ++ [Call err profile w])%list) →
  wp (invoke done err profile) (w, tr) Q.
Proof.
  unfold wp, invoke, run_foreign, emit, get_world, mbind, M_bind, bind; cbn.
  by destruct (done err profile w).
Qed.

Lemma wp_call_delegate D this options verify w tr Q :
  Q (D this options verify w).1
    ((D this options verify w).2, (tr ++ [Delegate this options verify w])%list) →
  wp (call_delegate D this options verify) (w, tr) Q.
Proof.
  unfold wp, call_delegate, run_foreign, emit, get_world, mbind, M_bind, bind; cbn.
  by destruct (D this options verify w).
Qed.

Lemma wp_JSON_parse text w tr Q :
  match parse text with
  | Some j => Q (Ok (reify j (heap w)).1) (World (reify j (heap w)).2 (globals w), tr)
  | None => Q (Throw SyntaxError) (w, tr)
  end →
  wp (JSON_parse text) (w, tr) Q.
Proof.
  unfold wp, JSON_parse. destruct (parse text); [|done]. cbn.
  by destruct (reify _ _).
Qed.

Lemma wp_to_string v st Q :
  primitive v = true → Q (Ok (prim_string v)) st → wp (to_string v) st Q.
Proof.
  intros Hv HQ. unfold wp, to_string.
  destruct v as [| |[]| | |]; try done; cbn; by destruct (size _).
Qed.

Lemma wp_str_add a b st Q :
  primitive a = true → primitive b = true →
  Q (Ok (VString (prim_string a +:+ prim_string b))) st → wp (str_add a b) st Q.
Proof.
  intros Ha Hb HQ. unfold str_add.
  apply wp_bind, wp_to_string; [done|]. apply wp_bind, wp_to_string; [done|].
  by apply wp_ret.
Qed.

(** Conversion reads the heap and may throw, but changes nothing. *)
Lemma wp_str_add_any a b st Q :
  (∀ r, Q r st) → wp (str_add a b) st Q.
Proof.
  intros HQ. unfold wp, str_add, to_string, mbind, M_bind, bind, mret, M_ret, ret.
  destruct (to_string_aux _ _ _ a); cbn; [|done].
  destruct (to_string_aux _ _ _ b); cbn; done.
Qed.

End Logic.
Import Logic.

(** ** The parameter hooks *)

Module Params.

Lemma field_insert_ne h g g' p c o k :
  (∀ l, o = VRef l → l ≠ p) →
  field (World (<[p := c]> h) g) o k = field (World h g') o k.
Proof.
  intros Hne. destruct o; try done. unfold field; cbn.
  rewrite lookup_insert_ne; [done|]. intros E. by apply (Hne l).
Qed.

Lemma live_ne w o p : live w o → heap w !! p = None → ∀ l, o = VRef l → l ≠ p.
Proof. intros Hl Hp l -> ->. destruct Hl as [c Hc]. cbn in Hp. congruence. Qed.

Lemma world_eta w : World (heap w) (globals w) = w.
Proof. by destruct w. Qed.

Lemma field_ref w l c k : heap w !! l = Some c → field w (VRef l) k = cell_get c k.
Proof. intros H. unfold field. by rewrite H. Qed.

Lemma pick_lookup w o keys m k :
  foldl (pick w o) m keys !! k =
    if bool_decide (k ∈ keys)
    then (if truthy (field w o k) then Some (field w o k) else m !! k)
    else m !! k.
Proof.
  revert m. induction keys as [|k' keys IH]; intros m; cbn; [done|].
  rewrite IH. unfold pick.
  destruct (decide (k = k')) as [->|Hne].
  - rewrite (bool_decide_eq_true_2 (k' ∈ k' :: keys)) by apply list_elem_of_here.
    destruct (truthy (field w o k')) eqn:Ht; [|by case_bool_decide].
    rewrite lookup_insert_eq. by case_bool_decide.
  - assert (bool_decide (k ∈ k' :: keys) = bool_decide (k ∈ keys)) as ->.
    { apply bool_decide_ext. rewrite elem_of_cons. tauto. }
    destruct (truthy (field w o k')); [|done].
    by rewrite lookup_insert_ne.
Qed.

(** One conditional copy, followed by the rest of the function. *)
Lemma wp_copy_hint {B} (rest : M B) h g tr options p k m Q :
  nullish options = false → (∀ l, options = VRef l → l ≠ p) →
  wp rest (World (<[p := Cell None (pick (World h g) options m k)]> h) g, tr) Q →
  wp (v ← getv options k;
      when (truthy v) (v' ← getv options k; putv (VRef p) k v');;
      rest)
     (World (<[p := Cell None m]> h) g, tr) Q.
Proof.
  intros Hn Hne HQ. unfold pick in HQ.
  apply wp_bind, wp_getv. rewrite Hn.
  rewrite (field_insert_ne h g g) by done.
  apply wp_bind.
  destruct (truthy (field (World h g) options k)) eqn:Ht; unfold when.
  - apply wp_bind, wp_getv. rewrite Hn.
    eapply wp_putv; [apply lookup_insert_eq|]. cbn.
    rewrite (field_insert_ne h g g) by done.
    by rewrite insert_insert_eq.
  - by apply wp_ret.
Qed.

Lemma authorizationParams_run w tr options :
  nullish options = false → live w options →
  ∃ p, heap w !! p = None ∧
       authorizationParams options (w, tr) =
         (Ok (VRef p),
          (World (<[p := Cell None (foldl (pick w options) ∅ hint_keys)]> (heap w))
                 (globals w), tr)).
Proof.
  intros Hn Hl.
  assert (wp (authorizationParams options) (w, tr) (λ r st', ∃ p, heap w !! p = None ∧
     (r, st') = (Ok (VRef p),
          (World (<[p := Cell None (foldl (pick w options) ∅ hint_keys)]> (heap w))
                 (globals w), tr)))) as H.
  { unfold authorizationParams, new_object.
    apply wp_bind, wp_alloc. intros p Hp.
    pose proof (live_ne _ _ _ Hl Hp) as Hne.
    do 4 (apply wp_copy_hint; [done..|]).
    apply wp_ret. exists p. by rewrite (world_eta w). }
  apply wp_run in H as (r & st' & Hrun & p & Hp & [= -> ->]). eauto.
Qed.

Lemma tokenParams_run w tr options :
  nullish options = false → live w options →
  ∃ p, heap w !! p = None ∧
       tokenParams options (w, tr) =
         (Ok (VRef p),
          (World (<[p := Cell None (pick w options ∅ "resource")]> (heap w))
                 (globals w), tr)).
Proof.
  intros Hn Hl.
  assert (wp (tokenParams options) (w, tr) (λ r st', ∃ p, heap w !! p = None ∧
     (r, st') = (Ok (VRef p),
          (World (<[p := Cell None (pick w options ∅ "resource")]> (heap w))
                 (globals w), tr)))) as H.
  { unfold tokenParams, new_object.
    apply wp_bind, wp_alloc. intros p Hp.
    pose proof (live_ne _ _ _ Hl Hp) as Hne.
    apply wp_copy_hint; [done..|].
    apply wp_ret. exists p. by rewrite (world_eta w). }
  apply wp_run in H as (r & st' & Hrun & p & Hp & [= -> ->]). eauto.
Qed.

Lemma nullish_throws options st :
  nullish options = true →
  (authorizationParams options st).1 = Throw TypeError ∧
  (tokenParams options st).1 = Throw TypeError.
Proof. by destruct options, st. Qed.

(** C5 (as amended): for every options object, [authorizationParams]
    returns a fresh object whose properties are exactly those of
    [domain_hint], [login_hint], [prompt] and [resource] whose value in
    [options] is truthy, each with that value, whatever the value is (a
    [prompt] is not validated); nothing else in the world changes. *)
Theorem authorizationParams_truthy_hints w tr l c :
  heap w !! l = Some c →
  ∃ p m, heap w !! p = None ∧
    authorizationParams (VRef l) (w, tr) =
      (Ok (VRef p), (World (<[p := Cell None m]> (heap w)) (globals w), tr)) ∧
    ∀ k, m !! k = if bool_decide (k ∈ hint_keys)
                  then (if truthy (cell_get c k) then Some (cell_get c k) else None)
                  else None.
Proof.
  intros H.
  destruct (authorizationParams_run w tr (VRef l)) as (p & Hp & Hrun); [done|by eexists|].
  exists p, (foldl (pick w (VRef l)) ∅ hint_keys). split_and!; [done..|].
  intros k. rewrite pick_lookup, lookup_empty, (field_ref _ _ _ _ H). done.
Qed.

Lemma authorizationParams_truthy_hints_witness :
  heap (world_of options_hints) !! 1%positive = Some options_hints ∧
  ∃ p m, heap (world_of options_hints) !! p = None ∧
    authorizationParams (VRef 1%positive) (world_of options_hints, []) =
      (Ok (VRef p),
       (World (<[p := Cell None m]> (heap (world_of options_hints)))
              (globals (world_of options_hints)), [])) ∧
    ∀ k, m !! k = if bool_decide (k ∈ hint_keys)
                  then (if truthy (cell_get options_hints k)
                        then Some (cell_get options_hints k) else None)
                  else None.
Proof.
  split; [reflexivity|].
  apply (authorizationParams_truthy_hints (world_of options_hints) [] 1%positive options_hints).
  reflexivity.
Defined.

(** C5 as stated fails: [domain_hint] is present in the options, with
    the empty string as its value, and absent from the result. *)
Lemma authorizationParams_drops_present_hint :
  ∃ p m,
    authorizationParams (VRef 1%positive) (world_of options_empty_hints, []) =
      (Ok (VRef p),
       (World (<[p := Cell None m]> (heap (world_of options_empty_hints))) ∅, [])) ∧
    props options_empty_hints !! "domain_hint" = Some (VString EmptyString) ∧
    m !! "domain_hint" = None.
Proof. exists 2%positive, ∅. by vm_compute. Qed.

(** The two examples of the specification. *)
Lemma authorizationParams_examples :
  authorizationParams (VRef 1%positive) (world_of (Cell None ∅), []) =
    (Ok (VRef 2%positive), (World (<[2%positive := Cell None ∅]> (heap (world_of (Cell None ∅)))) ∅, [])) ∧
  authorizationParams (VRef 1%positive) (world_of options_hints, []) =
    (Ok (VRef 2%positive),
     (World (<[2%positive := Cell None {[ "domain_hint" := VString "x";
                                          "prompt" := VString "login" ]}]>
               (heap (world_of options_hints))) ∅, [])).
Proof. by vm_compute. Qed.

(** C6 (as amended): for every options object, [tokenParams] returns a
    fresh object with the single property [resource] when the [resource] of
    [options] is truthy, and without properties otherwise. *)
Theorem tokenParams_truthy_resource w tr l c :
  heap w !! l = Some c →
  ∃ p m, heap w !! p = None ∧
    tokenParams (VRef l) (w, tr) =
      (Ok (VRef p), (World (<[p := Cell None m]> (heap w)) (globals w), tr)) ∧
    m = (if truthy (cell_get c "resource")
         then {[ "resource" := cell_get c "resource" ]} else ∅).
Proof.
  intros H.
  destruct (tokenParams_run w tr (VRef l)) as (p & Hp & Hrun); [done|by eexists|].
  exists p, (pick w (VRef l) ∅ "resource"). split_and!; [done..|].
  unfold pick. rewrite (field_ref _ _ _ _ H). by destruct (truthy _).
Qed.

Lemma tokenParams_truthy_resource_witness :
  heap (world_of options_resource) !! 1%positive = Some options_resource ∧
  ∃ p m, heap (world_of options_resource) !! p = None ∧
    tokenParams (VRef 1%positive) (world_of options_resource, []) =
      (Ok (VRef p),
       (World (<[p := Cell None m]> (heap (world_of options_resource)))
              (globals (world_of options_resource)), [])) ∧
    m = (if truthy (cell_get options_resource "resource")
         then {[ "resource" := cell_get options_resource "resource" ]} else ∅).
Proof.
  split; [reflexivity|].
  apply (tokenParams_truthy_resource (world_of options_resource) [] 1%positive options_resource).
  reflexivity.
Defined.

(** C6 as stated fails: [resource] is present in the options, with the
    empty string as its value, and the result has no property. *)
Lemma tokenParams_drops_present_resource :
  ∃ p,
    tokenParams (VRef 1%positive) (world_of options_empty_hints, []) =
      (Ok (VRef p),
       (World (<[p := Cell None ∅]> (heap (world_of options_empty_hints))) ∅, [])) ∧
    props options_empty_hints !! "resource" = Some (VString EmptyString).
Proof. exists 2%positive. by vm_compute. Qed.

Lemma pick_agree w1 o1 w2 o2 keys :
  (∀ k, k ∈ keys → field w1 o1 k = field w2 o2 k) →
  foldl (pick w1 o1) ∅ keys = foldl (pick w2 o2) ∅ keys.
Proof.
  intros Hk. apply map_eq. intros k. rewrite !pick_lookup.
  case_bool_decide; [|done]. by rewrite Hk.
Qed.

(** C7 (as amended): on every argument other than [undefined] and [null],
    both hooks return normally; the world they leave is the one they found
    plus the fresh object they return (no object, no global and no output
    is touched); and the properties of the result are a function of the
    hint fields of the argument alone: two calls on arguments with equal
    fields, in any two worlds, give results with equal properties. *)
Theorem params_deterministic_pure_total w1 tr1 o1 w2 tr2 o2 :
  nullish o1 = false → live w1 o1 →
  nullish o2 = false → live w2 o2 →
  (∀ k, k ∈ hint_keys → field w1 o1 k = field w2 o2 k) →
  (∃ m p1 p2,
      heap w1 !! p1 = None ∧ heap w2 !! p2 = None ∧
      authorizationParams o1 (w1, tr1) =
        (Ok (VRef p1), (World (<[p1 := Cell None m]> (heap w1)) (globals w1), tr1)) ∧
      authorizationParams o2 (w2, tr2) =
        (Ok (VRef p2), (World (<[p2 := Cell None m]> (heap w2)) (globals w2), tr2))) ∧
  (∃ m p1 p2,
      heap w1 !! p1 = None ∧ heap w2 !! p2 = None ∧
      tokenParams o1 (w1, tr1) =
        (Ok (VRef p1), (World (<[p1 := Cell None m]> (heap w1)) (globals w1), tr1)) ∧
      tokenParams o2 (w2, tr2) =
        (Ok (VRef p2), (World (<[p2 := Cell None m]> (heap w2)) (globals w2), tr2))).
Proof.
  intros Hn1 Hl1 Hn2 Hl2 Hk. split.
  - destruct (authorizationParams_run w1 tr1 o1) as (p1 & Hp1 & Hrun1); [done..|].
    destruct (authorizationParams_run w2 tr2 o2) as (p2 & Hp2 & Hrun2); [done..|].
    exists (foldl (pick w1 o1) ∅ hint_keys), p1, p2. split_and!; [done..|].
    by rewrite (pick_agree w1 o1 w2 o2).
  - destruct (tokenParams_run w1 tr1 o1) as (p1 & Hp1 & Hrun1); [done..|].
    destruct (tokenParams_run w2 tr2 o2) as (p2 & Hp2 & Hrun2); [done..|].
    exists (pick w1 o1 ∅ "resource"), p1, p2. split_and!; [done..|].
    unfold pick in *. rewrite Hk; [done|].
    unfold hint_keys. rewrite !elem_of_cons. tauto.
Qed.

Lemma params_deterministic_pure_total_witness :
  ∃ m p1 p2,
    authorizationParams (VRef 1%positive) (world_of options_hints, []) =
      (Ok (VRef p1),
       (World (<[p1 := Cell None m]> (heap (world_of options_hints))) ∅, [])) ∧
    authorizationParams (VRef 5%positive) (other_world options_hints, [Log "x"]) =
      (Ok (VRef p2),
       (World (<[p2 := Cell None m]> (heap (other_world options_hints)))
              (globals (other_world options_hints)), [Log "x"])).
Proof.
  destruct (params_deterministic_pure_total
              (world_of options_hints) [] (VRef 1%positive)
              (other_world options_hints) [Log "x"] (VRef 5%positive))
    as [(m & p1 & p2 & _ & _ & H1 & H2) _].
  - reflexivity.
  - eexists; reflexivity.
  - reflexivity.
  - eexists; reflexivity.
  - intros k _; reflexivity.
  - exists m, p1, p2. split; assumption.
Defined.

(** C7 as stated fails: on [undefined] both hooks throw. *)
Lemma params_throw_on_undefined :
  (authorizationParams VUndefined (world_of options_hints, [])).1 = Throw TypeError ∧
  (tokenParams VUndefined (world_of options_hints, [])).1 = Throw TypeError.
Proof. by vm_compute. Qed.

(** C10: a hint whose value in the options is falsy, present or not, is
    left out of the result of both hooks. *)
Theorem falsy_hint_omitted w tr l c k :
  heap w !! l = Some c → truthy (cell_get c k) = false →
  (∃ p m, authorizationParams (VRef l) (w, tr) =
            (Ok (VRef p), (World (<[p := Cell None m]> (heap w)) (globals w), tr)) ∧
          m !! k = None) ∧
  (∃ p m, tokenParams (VRef l) (w, tr) =
            (Ok (VRef p), (World (<[p := Cell None m]> (heap w)) (globals w), tr)) ∧
          m !! k = None).
Proof.
  intros H Hf. split.
  - destruct (authorizationParams_run w tr (VRef l)) as (p & Hp & Hrun); [done|by eexists|].
    eexists p, _. split; [done|].
    rewrite pick_lookup, (field_ref _ _ _ _ H), Hf, lookup_empty. by case_bool_decide.
  - destruct (tokenParams_run w tr (VRef l)) as (p & Hp & Hrun); [done|by eexists|].
    eexists p, _. split; [done|].
    unfold pick. rewrite (field_ref _ _ _ _ H).
    destruct (truthy (cell_get c "resource")) eqn:Ht; [|done].
    rewrite lookup_insert_ne; [done|]. intros <-. congruence.
Qed.

Lemma falsy_hint_omitted_witness :
  (∃ p m, authorizationParams (VRef 1%positive) (world_of options_empty_hints, []) =
            (Ok (VRef p),
             (World (<[p := Cell None m]> (heap (world_of options_empty_hints)))
                    (globals (world_of options_empty_hints)), [])) ∧
          m !! "domain_hint" = None) ∧
  (∃ p m, tokenParams (VRef 1%positive) (world_of options_empty_hints, []) =
            (Ok (VRef p),
             (World (<[p := Cell None m]> (heap (world_of options_empty_hints)))
                    (globals (world_of options_empty_hints)), [])) ∧
          m !! "domain_hint" = None).
Proof.
  apply (falsy_hint_omitted (world_of options_empty_hints) [] 1%positive
           options_empty_hints "domain_hint"); reflexivity.
Defined.

(** The two examples of C10: with the empty string as [domain_hint], and
    as [resource], the hooks return an object without properties. *)
Lemma empty_string_hints_give_no_params :
  authorizationParams (VRef 1%positive) (world_of options_empty_domain_hint, []) =
    (Ok (VRef 2%positive),
     (World (<[2%positive := Cell None ∅]> (heap (world_of options_empty_domain_hint))) ∅,
      [])) ∧
  tokenParams (VRef 1%positive) (world_of options_empty_resource, []) =
    (Ok (VRef 2%positive),
     (World (<[2%positive := Cell None ∅]> (heap (world_of options_empty_resource))) ∅, [])).
Proof. by vm_compute. Qed.

End Params.

(** ** What [JSON.parse] leaves in the heap *)

Module Parsed.

Lemma json_induction (P : json → Prop) :
  P JNull → (∀ b, P (JBool b)) → (∀ n, P (JNumber n)) → (∀ s, P (JString s)) →
  (∀ xs, Forall P xs → P (JArray xs)) →
  (∀ ms, Forall (λ kv, P kv.2) ms → P (JObject ms)) →
  ∀ j, P j.
Proof.
  intros Hnull Hbool Hnum Hstr Harr Hobj.
  refine (fix IH (j : json) : P j :=
            match j with
            | JNull => Hnull
            | JBool b => Hbool b
            | JNumber n => Hnum n
            | JString s => Hstr s
            | JArray xs =>
                Harr xs ((fix all (xs : list json) : Forall P xs :=
                            match xs with
                            | [] => @List.Forall_nil _ P
                            | x :: r => @List.Forall_cons _ P x r (IH x) (all r)
                            end) xs)
            | JObject ms =>
                Hobj ms ((fix all (ms : list (string * json)) : Forall (λ kv, P kv.2) ms :=
                            match ms with
                            | [] => @List.Forall_nil _ (λ kv, P kv.2)
                            | kv :: r => @List.Forall_cons _ (λ kv, P kv.2) kv r (IH kv.2) (all r)
                            end) ms)
            end).
Qed.

Lemma extends_refl h : extends h h.
Proof. by intros l c. Qed.

Lemma extends_trans h1 h2 h3 : extends h1 h2 → extends h2 h3 → extends h1 h3.
Proof. intros H12 H23 l c H. eauto. Qed.

Lemma extends_fresh h c : extends h (fresh_cell c h).2.
Proof.
  intros l c' H. cbn. rewrite lookup_insert_ne; [done|].
  intros <-. pose proof (is_fresh (dom h)) as Hf.
  apply not_elem_of_dom in Hf. congruence.
Qed.

Lemma reify_extends j : ∀ h, extends h (reify j h).2.
Proof.
  induction j as [| b | n | s | xs IH | ms IH] using json_induction; intros h;
    try apply extends_refl.
  - assert (∀ h, extends h (reify_items reify xs h).2) as Hxs.
    { induction IH as [|x r Hx _ IHr]; intros h0; cbn; [apply extends_refl|].
      specialize (Hx h0). destruct (reify x h0) as [v h1].
      specialize (IHr h1). destruct (reify_items reify r h1) as [vs h2].
      by eapply extends_trans. }
    cbn [reify]. specialize (Hxs h). destruct (reify_items reify xs h) as [vs h'].
    eapply extends_trans; [exact Hxs|apply extends_fresh].
  - assert (∀ m h, extends h (reify_members reify ms m h).2) as Hms.
    { induction IH as [|[k x] r Hx _ IHr]; intros m0 h0; cbn; [apply extends_refl|].
      specialize (Hx h0). cbn in Hx. destruct (reify x h0) as [v h1].
      eapply extends_trans; [exact Hx|apply IHr]. }
    cbn [reify]. specialize (Hms ∅ h). destruct (reify_members reify ms ∅ h) as [m h'].
    eapply extends_trans; [exact Hms|apply extends_fresh].
Qed.

Lemma reify_prim j p h : json_prim j = Some p → (reify j h).1 = p.
Proof. destruct j; cbn; congruence. Qed.

(** The properties of a parsed object are its members: a name that no
    member has is no property, and a member that is a string, a number, a
    boolean or [null] is a property with that very value. *)
Lemma reify_members_lookup ms k : ∀ m h,
  match member k ms with
  | None => (reify_members reify ms m h).1 !! k = m !! k
  | Some j => ∃ v, (reify_members reify ms m h).1 !! k = Some v ∧
                   ∀ p, json_prim j = Some p → v = p
  end.
Proof.
  induction ms as [|[k' x] r IH]; intros m h; cbn; [done|].
  pose proof (reify_prim x) as Hprim.
  destruct (reify x h) as [v h1] eqn:E.
  specialize (IH (<[k' := v]> m) h1).
  destruct (member k r); [done|].
  destruct (String.eqb_spec k k') as [->|Hne].
  - rewrite IH, lookup_insert_eq. exists v. split; [done|].
    intros p Hp. specialize (Hprim p h Hp). by rewrite E in Hprim.
  - by rewrite IH, lookup_insert_ne.
Qed.

Lemma reify_members_extends ms : ∀ m h, extends h (reify_members reify ms m h).2.
Proof.
  induction ms as [|[k x] r IH]; intros m h; cbn; [apply extends_refl|].
  pose proof (reify_extends x h) as Hx. destruct (reify x h) as [v h1].
  eapply extends_trans; [exact Hx|apply IH].
Qed.

Lemma reify_object ms h :
  ∃ l m h',
    reify (JObject ms) h = (VRef l, <[l := Cell None m]> h') ∧
    h' !! l = None ∧ extends h h' ∧
    ∀ k, match member k ms with
         | None => m !! k = None
         | Some j => ∃ v, m !! k = Some v ∧ ∀ p, json_prim j = Some p → v = p
         end.
Proof.
  pose proof (reify_members_extends ms ∅ h) as Hext.
  pose proof (λ k, reify_members_lookup ms k ∅ h) as Hm.
  cbn [reify]. destruct (reify_members reify ms ∅ h) as [m h'] eqn:E.
  exists (fresh (dom h')), m, h'. split_and!.
  - done.
  - apply not_elem_of_dom, is_fresh.
  - done.
  - intros k. specialize (Hm k). cbn in Hm. by destruct (member k ms).
Qed.

(** Numerals are read as binary64 values and printed back with the fewest
    digits: no value lies between 2^53 and 2^53 + 2, the nearest to 1e23 is
    below it and prints as it, and what is out of range is an infinity or
    zero. *)
Lemma parse_number_examples :
  map (λ text, (λ j, match j with
                     | JNumber n => number_to_string n
                     | _ => EmptyString
                     end) <$> parse text)
      ["42"; "-12.50"; "0.1"; "1.5E3";
       "9007199254740993"; "9007199254740995"; "123456789012345678901";
       "0.30000000000000004"; "1.00000000000000011";
       "1e23"; "9.999999999999999e22";
       "1.7976931348623158e308"; "1.7976931348623159e308"; "-1e400";
       "5e-324"; "2.5e-324"; "2.4e-324"; "1e-400"; "-0"]
  = map Some
      ["42"; "-12.5"; "0.1"; "1500";
       "9007199254740992"; "9007199254740996"; "123456789012345680000";
       "0.30000000000000004"; "1";
       "1e+23"; "1e+23";
       "1.7976931348623157e+308"; "Infinity"; "-Infinity";
       "5e-324"; "5e-324"; "0"; "0"; "0"].
Proof. by vm_compute. Qed.

End Parsed.

(** ** [userProfile] *)

Module Profile.

Lemma field_skip h g p c o k :
  o ≠ VRef p → field (World (<[p := c]> h) g) o k = field (World h g) o k.
Proof. intros Hne. apply Params.field_insert_ne. intros l -> E. apply Hne. by rewrite E. Qed.

Lemma field_hit h g l m k : field (World (<[l := Cell None m]> h) g) (VRef l) k = claim m k.
Proof. unfold field; cbn. by rewrite lookup_insert_eq. Qed.

Lemma wp_putv_top h g tr p c k v Q :
  Q (Ok ()) (World (<[p := cell_put c k v]> h) g, tr) →
  wp (putv (VRef p) k v) (World (<[p := c]> h) g, tr) Q.
Proof.
  intros HQ. eapply wp_putv; [apply lookup_insert_eq|]. cbn. by rewrite insert_insert_eq.
Qed.

Lemma plain_primitive ms m k :
  (match member k ms with
   | None => m !! k = None
   | Some j => ∃ v, m !! k = Some v ∧ ∀ p, json_prim j = Some p → v = p
   end) →
  plain ms k = true → primitive (claim m k) = true.
Proof.
  unfold plain, claim. destruct (member k ms) as [j|]; [|by intros ->].
  intros (v & -> & Hv) Hj. cbn.
  destruct j; try discriminate; by rewrite (Hv _ eq_refl).
Qed.

Lemma payload_split tok text :
  payload tok = Some text →
  ∃ seg, split "." tok !! 1%nat = Some seg ∧ text = Buffer_toString (base64_decode seg).
Proof.
  unfold payload. destruct (split "." tok !! 1%nat) as [seg|]; [|done].
  intros [= <-]. eauto.
Qed.

(** The run of [userProfile] on a token whose payload is a JSON object,
    up to the call of the callback and, if the callback returns, to the
    end. *)
Lemma userProfile_decoded this tok done w tr text ms :
  nullish this = false →
  payload tok = Some text →
  parse text = Some (JObject ms) →
  plain ms "given_name" = true → plain ms "family_name" = true →
  ∃ p lj n e m h rest,
    (userProfile this (VString tok) done (w, tr)).2.2
      = (tr ++ Call VNull (VRef p) (World h (globals w)) :: rest)%list ∧
    (∀ v, (done VNull (VRef p) (World h (globals w))).1 = Ok v →
          userProfile this (VString tok) done (w, tr)
            = (Ok VUndefined, ((done VNull (VRef p) (World h (globals w))).2,
                               (tr ++ [Call VNull (VRef p) (World h (globals w))])%list))) ∧
    h !! p = Some (Cell None (profile_props (field w this "name") text m lj n e)) ∧
    h !! lj = Some (Cell None m) ∧
    h !! n = Some (Cell None (name_props m)) ∧
    h !! e = Some (Cell (Some [claim m "email"]) ∅) ∧
    (∀ k, match member k ms with
          | None => m !! k = None
          | Some j => ∃ v, m !! k = Some v ∧ ∀ q, json_prim j = Some q → v = q
          end).
Proof.
  intros Hthis Hpay Hparse Hgiven Hfamily.
  apply payload_split in Hpay as (seg & Hseg & ->).
  set (text := Buffer_toString (base64_decode seg)) in *.
  assert (wp (userProfile this (VString tok) done) (w, tr) (λ r st',
    ∃ p lj n e m h rest,
      st'.2 = (tr ++ Call VNull (VRef p) (World h (globals w)) :: rest)%list ∧
      (∀ v, (done VNull (VRef p) (World h (globals w))).1 = Ok v →
            (r, st') = (Ok VUndefined, ((done VNull (VRef p) (World h (globals w))).2,
                                 (tr ++ [Call VNull (VRef p) (World h (globals w))])%list))) ∧
      h !! p = Some (Cell None (profile_props (field w this "name") text m lj n e)) ∧
      h !! lj = Some (Cell None m) ∧
      h !! n = Some (Cell None (name_props m)) ∧
      h !! e = Some (Cell (Some [claim m "email"]) ∅) ∧
      (∀ k, match member k ms with
            | None => m !! k = None
            | Some j => ∃ v, m !! k = Some v ∧ ∀ q, json_prim j = Some q → v = q
            end))) as H.
  { unfold userProfile.
    apply wp_bind, wp_getv. rewrite Hthis.
    apply wp_bind. unfold new_object. apply wp_alloc. intros p Hp.
    apply wp_bind, wp_try_catch.
    apply wp_bind, wp_lift. cbn [split_index]. rewrite Hseg. cbn [from_option].
    apply wp_bind, wp_lift. cbn [new_Buffer]. fold text.
    apply wp_bind, wp_putv_top.
    apply wp_bind, wp_JSON_parse. rewrite Hparse. cbn [heap globals].
    match goal with |- context [reify _ ?h2] =>
      destruct (Parsed.reify_object ms h2) as (lj & m & h' & -> & Hlj & Hext & Hm) end.
    cbn [fst snd].
    pose proof (Hext p _ (lookup_insert_eq _ _ _)) as Hp'.
    assert (p ≠ lj) as Hplj by (intros ->; congruence).
    assert (VRef lj ≠ VRef p) as Hrlj by congruence.
    rewrite <- (insert_id h' p _ Hp'), insert_insert_ne by done.
    apply wp_bind, wp_putv_top.
    do 3 (apply wp_bind, wp_getv; cbn [nullish]; rewrite field_skip, field_hit by done;
          apply wp_bind, wp_putv_top).
    pose proof (plain_primitive ms m _ (Hm _) Hgiven) as Hg.
    pose proof (plain_primitive ms m _ (Hm _) Hfamily) as Hf.
    apply wp_bind, wp_getv; cbn [nullish]; rewrite field_skip, field_hit by done.
    apply wp_bind, wp_str_add; [done..|]. cbn [prim_string].
    apply wp_bind, wp_getv; cbn [nullish]; rewrite field_skip, field_hit by done.
    apply wp_bind, wp_str_add; [done..|]. cbn [prim_string].
    apply wp_bind, wp_putv_top.
    do 2 (apply wp_bind, wp_getv; cbn [nullish]; rewrite field_skip, field_hit by done).
    apply wp_bind, wp_alloc. cbn [heap globals]. intros n Hn.
    apply lookup_insert_None in Hn as [Hn Hpn].
    apply lookup_insert_None in Hn as [Hn Hljn].
    rewrite (insert_insert_ne _ n p) by done.
    apply wp_bind, wp_putv_top.
    apply wp_bind, wp_getv; cbn [nullish].
    rewrite !field_skip, field_hit by congruence.
    apply wp_bind. unfold new_array. apply wp_alloc. cbn [heap globals]. intros e He.
    apply lookup_insert_None in He as [He Hpe].
    apply lookup_insert_None in He as [He Hne].
    apply lookup_insert_None in He as [He Hlje].
    rewrite (insert_insert_ne _ e p) by done.
    apply wp_bind, wp_putv_top.
    apply wp_invoke.
    match goal with |- context [done VNull (VRef p) (World ?hc ?g)] =>
      set (h := hc) end.
    assert (h !! p = Some (Cell None (profile_props (field w this "name") text m lj n e))
            ∧ h !! lj = Some (Cell None m)
            ∧ h !! n = Some (Cell None (name_props m))
            ∧ h !! e = Some (Cell (Some [claim m "email"]) ∅)) as (Fp & Flj & Fn & Fe).
    { subst h. split_and!.
      - by rewrite lookup_insert_eq.
      - by rewrite !lookup_insert_ne, lookup_insert_eq by done.
      - by rewrite !lookup_insert_ne, lookup_insert_eq by done.
      - by rewrite !lookup_insert_ne, lookup_insert_eq by done. }
    clearbody h.
    destruct (done VNull (VRef p) (World h (globals w))) as [[v|ex] wd] eqn:Ed; cbn [fst snd].
    - apply wp_ret. exists p, lj, n, e, m, h, []. rewrite Ed. split_and!; done.
    - unfold console_log. apply wp_bind, wp_emit, wp_bind, wp_global.
      destruct (globals wd !! "ex") as [x|].
      + apply wp_invoke.
        destruct (done x VNull wd) as [[v'|ex'] wd']; cbn [fst snd]; [apply wp_ret|];
          exists p, lj, n, e, m, h, [Log "Unable to parse oauth2 token for user profile";
                                     Call x VNull wd]; rewrite Ed;
          (split_and!; [by rewrite <- !app_assoc|done..]).
      + exists p, lj, n, e, m, h, [Log "Unable to parse oauth2 token for user profile"].
        rewrite Ed. split_and!; [by rewrite <- !app_assoc|done..]. }
  apply wp_run in H as (r & st' & Hrun & p & lj & n & e & m & h & rest & Htr & Hok & Hrest).
  exists p, lj, n, e, m, h, rest. rewrite Hrun. split_and!; [done| |apply Hrest..].
  intros v Hv. by rewrite <- (Hok v Hv).
Qed.

(** C1 (the code departs from it): on a token that cannot be decoded (no
    second segment, a payload that is not JSON once leniently decoded, or
    the JSON [null]), and with no global named [ex], [userProfile] logs its
    message and then throws a [ReferenceError] for [ex]; the callback is
    never invoked. *)
Theorem userProfile_undecodable_throws this tok done w tr :
  nullish this = false → undecodable tok = true → globals w !! "ex" = None →
  ∃ w', globals w' = globals w ∧
    userProfile this (VString tok) done (w, tr) =
      (Throw (ReferenceError "ex"),
       (w', (tr ++ [Log "Unable to parse oauth2 token for user profile"])%list)).
Proof.
  intros Hthis Hun Hex.
  assert (wp (userProfile this (VString tok) done) (w, tr) (λ r st',
    ∃ w', globals w' = globals w ∧
      (r, st') = (Throw (ReferenceError "ex"),
         (w', (tr ++ [Log "Unable to parse oauth2 token for user profile"])%list)))) as H.
  { unfold userProfile.
    apply wp_bind, wp_getv. rewrite Hthis.
    apply wp_bind. unfold new_object. apply wp_alloc. intros p Hp.
    apply wp_bind, wp_try_catch.
    unfold undecodable, payload in Hun.
    apply wp_bind, wp_lift. cbn [split_index].
    destruct (split "." tok !! 1%nat) as [seg|]; cbn [from_option fmap option_fmap option_map] in *.
    - apply wp_bind, wp_lift. cbn [new_Buffer].
      apply wp_bind, wp_putv_top.
      apply wp_bind, wp_JSON_parse.
      destruct (parse (Buffer_toString (base64_decode seg))) as [[]|]; try discriminate.
      + cbn [reify fst snd heap globals].
        apply wp_bind, wp_putv_top.
        apply wp_bind, wp_getv. cbn [nullish].
        unfold console_log. apply wp_bind, wp_emit, wp_bind, wp_global.
        cbn [globals]. rewrite Hex.
        eexists; split; [|reflexivity]; reflexivity.
      + unfold console_log. apply wp_bind, wp_emit, wp_bind, wp_global.
        cbn [globals]. rewrite Hex.
        eexists; split; [|reflexivity]; reflexivity.
    - apply wp_bind, wp_lift. cbn [new_Buffer].
      unfold console_log. apply wp_bind, wp_emit, wp_bind, wp_global.
      cbn [globals]. rewrite Hex.
        eexists; split; [|reflexivity]; reflexivity. }
  apply wp_run in H as (r & st' & Hrun & w' & Hg & [= -> ->]). eauto.
Qed.

Lemma userProfile_undecodable_throws_witness :
  ∃ w', globals w' = globals world_strategy ∧
    userProfile (VRef 1%positive) (VString token_one_segment) returns (world_strategy, []) =
      (Throw (ReferenceError "ex"),
       (w', ([] ++ [Log "Unable to parse oauth2 token for user profile"])%list)).
Proof.
  apply (userProfile_undecodable_throws (VRef 1%positive) token_one_segment returns
           world_strategy []); reflexivity.
Defined.

(** The three kinds of undecodable token of C1, run. *)
Lemma userProfile_undecodable_examples :
  Forall (λ tok,
            let r := userProfile (VRef 1%positive) (VString tok) returns (world_strategy, []) in
            r.1 = Throw (ReferenceError "ex") ∧
            r.2.2 = [Log "Unable to parse oauth2 token for user profile"])
         [token_one_segment; token_bad_base64; token_not_json].
Proof. repeat constructor; by vm_compute. Qed.

Lemma array_index_0 : array_index "0" = Some 0%nat.
Proof. reflexivity. Qed.

Lemma profile_props_lookup provider text m lj n e :
  let P := profile_props provider text m lj n e in
  P !! "provider" = Some provider ∧
  P !! "id" = Some (claim m "oid") ∧
  P !! "orgId" = Some (claim m "tid") ∧
  P !! "username" = Some (claim m "unique_name") ∧
  P !! "name" = Some (VRef n) ∧
  P !! "emails" = Some (VRef e) ∧
  P !! "displayname" = Some (VString ((prim_string (claim m "given_name") +:+ " ")
                                      +:+ prim_string (claim m "family_name"))) ∧
  P !! "displayName" = None.
Proof. unfold profile_props. split_and!; by simplify_map_eq. Qed.

(** The profile as the callback can read it. *)
Lemma profile_fields h g p provider text m lj n e :
  h !! p = Some (Cell None (profile_props provider text m lj n e)) →
  h !! n = Some (Cell None (name_props m)) →
  h !! e = Some (Cell (Some [claim m "email"]) ∅) →
  let wc := World h g in
  field wc (VRef p) "provider" = provider ∧
  field wc (VRef p) "id" = claim m "oid" ∧
  field wc (VRef p) "orgId" = claim m "tid" ∧
  field wc (VRef p) "username" = claim m "unique_name" ∧
  field wc (field wc (VRef p) "name") "givenName" = claim m "given_name" ∧
  field wc (field wc (VRef p) "name") "familyName" = claim m "family_name" ∧
  field wc (field wc (VRef p) "emails") "0" = claim m "email" ∧
  field wc (VRef p) "displayname"
    = VString ((prim_string (claim m "given_name") +:+ " ")
               +:+ prim_string (claim m "family_name")) ∧
  field wc (VRef p) "displayName" = VUndefined.
Proof.
  intros Fp Fn Fe wc.
  destruct (profile_props_lookup provider text m lj n e)
    as (P1 & P2 & P3 & P4 & P5 & P6 & P7 & P8).
  assert (∀ k, field wc (VRef p) k
               = default VUndefined (profile_props provider text m lj n e !! k)) as Hf.
  { intros k. unfold field; cbn. by rewrite Fp. }
  rewrite !Hf, P1, P2, P3, P4, P5, P6, P7, P8. subst wc. cbn.
  rewrite Fn, Fe. unfold cell_get; cbn [elems props]. rewrite array_index_0.
  unfold name_props. split_and!; try done; by simplify_map_eq.
Qed.

Lemma member_string ms m k s :
  (∀ k, match member k ms with
        | None => m !! k = None
        | Some j => ∃ v, m !! k = Some v ∧ ∀ q, json_prim j = Some q → v = q
        end) →
  member k ms = Some (JString s) → claim m k = VString s.
Proof.
  intros Hm Hk. specialize (Hm k). rewrite Hk in Hm. destruct Hm as (v & Hv & Hq).
  unfold claim. rewrite Hv. cbn. by apply Hq.
Qed.

Lemma member_none ms m k :
  (∀ k, match member k ms with
        | None => m !! k = None
        | Some j => ∃ v, m !! k = Some v ∧ ∀ q, json_prim j = Some q → v = q
        end) →
  member k ms = None → claim m k = VUndefined.
Proof.
  intros Hm Hk. specialize (Hm k). rewrite Hk in Hm. unfold claim. by rewrite Hm.
Qed.

(** C2 (the code departs from it): on a token of three segments whose
    payload is a JSON object with the six claims as strings, the callback is
    invoked with [null] and a profile whose [id], [orgId], [username],
    [name.givenName], [name.familyName] and [emails[0]] are the claims; the
    display name, given name, space, family name, is stored under
    [displayname], and the profile has no [displayName]. *)
Theorem userProfile_displayname_lowercase this tok done w tr hdr seg sig ms
    oid tid unique_name given_name family_name email :
  nullish this = false →
  split "." tok = [hdr; seg; sig] →
  parse (Buffer_toString (base64_decode seg)) = Some (JObject ms) →
  member "oid" ms = Some (JString oid) →
  member "tid" ms = Some (JString tid) →
  member "unique_name" ms = Some (JString unique_name) →
  member "given_name" ms = Some (JString given_name) →
  member "family_name" ms = Some (JString family_name) →
  member "email" ms = Some (JString email) →
  ∃ p wc rest,
    (userProfile this (VString tok) done (w, tr)).2.2
      = (tr ++ Call VNull (VRef p) wc :: rest)%list ∧
    field wc (VRef p) "id" = VString oid ∧
    field wc (VRef p) "orgId" = VString tid ∧
    field wc (VRef p) "username" = VString unique_name ∧
    field wc (field wc (VRef p) "name") "givenName" = VString given_name ∧
    field wc (field wc (VRef p) "name") "familyName" = VString family_name ∧
    field wc (field wc (VRef p) "emails") "0" = VString email ∧
    field wc (VRef p) "displayname" = VString ((given_name +:+ " ") +:+ family_name) ∧
    field wc (VRef p) "displayName" = VUndefined.
Proof.
  intros Hthis Hsplit Hparse Hoid Htid Hun Hgn Hfn Hem.
  destruct (userProfile_decoded this tok done w tr
              (Buffer_toString (base64_decode seg)) ms)
    as (p & lj & n & e & m & h & rest & Htr & _ & Fp & Flj & Fn & Fe & Hm);
    [done|by unfold payload; rewrite Hsplit|done|unfold plain; by rewrite ?Hgn, ?Hfn..|].
  exists p, (World h (globals w)), rest. split; [done|].
  destruct (profile_fields h (globals w) p _ _ m lj n e Fp Fn Fe)
    as (_ & F1 & F2 & F3 & F4 & F5 & F6 & F7 & F8).
  rewrite F1, F2, F3, F4, F5, F6, F7, F8.
  rewrite (member_string _ _ _ _ Hm Hoid), (member_string _ _ _ _ Hm Htid),
    (member_string _ _ _ _ Hm Hun), (member_string _ _ _ _ Hm Hgn),
    (member_string _ _ _ _ Hm Hfn), (member_string _ _ _ _ Hm Hem).
  done.
Qed.

Lemma userProfile_displayname_lowercase_witness :
  ∃ p wc rest,
    (userProfile (VRef 1%positive) (VString token_full) returns (world_strategy, [])).2.2
      = ([] ++ Call VNull (VRef p) wc :: rest)%list ∧
    field wc (VRef p) "id" = VString "o1" ∧
    field wc (VRef p) "orgId" = VString "t1" ∧
    field wc (VRef p) "username" = VString "ann@example.net" ∧
    field wc (field wc (VRef p) "name") "givenName" = VString "Ann" ∧
    field wc (field wc (VRef p) "name") "familyName" = VString "Lee" ∧
    field wc (field wc (VRef p) "emails") "0" = VString "ann@example.org" ∧
    field wc (VRef p) "displayname" = VString (("Ann" +:+ " ") +:+ "Lee") ∧
    field wc (VRef p) "displayName" = VUndefined.
Proof.
  apply (userProfile_displayname_lowercase (VRef 1%positive) token_full returns
           world_strategy [] "h"
           "eyJvaWQiOiJvMSIsInRpZCI6InQxIiwidW5pcXVlX25hbWUiOiJhbm5AZXhhbXBsZS5uZXQiLCJnaXZlbl9uYW1lIjoiQW5uIiwiZmFtaWx5X25hbWUiOiJMZWUiLCJlbWFpbCI6ImFubkBleGFtcGxlLm9yZyJ9"
           "s" claims_full);
    reflexivity.
Defined.

(** [token_full], run: the callback gets the profile, in which
    [displayname] is the full name and [displayName] reads [undefined]. *)
Lemma userProfile_full_example :
  let r := userProfile (VRef 1%positive) (VString token_full) returns (world_strategy, []) in
  r.1 = Ok VUndefined ∧
  ∃ wc, r.2.2 = [Call VNull (VRef 2%positive) wc] ∧
        field wc (VRef 2%positive) "provider" = VString "azure" ∧
        field wc (VRef 2%positive) "displayname" = VString "Ann Lee" ∧
        field wc (VRef 2%positive) "displayName" = VUndefined.
Proof. vm_compute. split; [done|]. eexists. split; [reflexivity|]. by vm_compute. Qed.

(** When the callback itself throws, the handler runs as well: the
    message is logged and the [ReferenceError] replaces what was thrown. *)
Lemma userProfile_callback_throws_example :
  let r := userProfile (VRef 1%positive) (VString token_full) rethrows (world_strategy, []) in
  r.1 = Throw (ReferenceError "ex") ∧
  ∃ wc, r.2.2 = [Call VNull (VRef 2%positive) wc;
                 Log "Unable to parse oauth2 token for user profile"].
Proof. vm_compute. split; [done|]. by eexists. Qed.





(** [token_oid_only], run. *)
Lemma userProfile_oid_only_example :
  let r := userProfile (VRef 1%positive) (VString token_oid_only) returns (world_strategy, []) in
  r.1 = Ok VUndefined ∧
  ∃ wc, r.2.2 = [Call VNull (VRef 2%positive) wc] ∧
        field wc (VRef 2%positive) "id" = VString "o1" ∧
        field wc (VRef 2%positive) "orgId" = VUndefined ∧
        field wc (field wc (VRef 2%positive) "name") "givenName" = VUndefined ∧
        field wc (field wc (VRef 2%positive) "emails") "0" = VUndefined ∧
        field wc (VRef 2%positive) "displayname" = VString "undefined undefined".
Proof. vm_compute. split; [done|]. eexists. split; [reflexivity|]. by vm_compute. Qed.

End Profile.

(** ** The constructor *)

Module Ctor.

Lemma cell_get_put_ne c k k' v : k ≠ k' → cell_get (cell_put c k v) k' = cell_get c k'.
Proof.
  intros Hne. unfold cell_get, cell_put; cbn. by rewrite lookup_insert_ne.
Qed.

Lemma cell_get_put_eq c k v :
  array_index k = None → String.eqb k "length" = false →
  cell_get (cell_put c k v) k = v.
Proof.
  intros Hi Hl. unfold cell_get, cell_put; cbn. rewrite Hi, Hl, lookup_insert_eq.
  by destruct (elems c).
Qed.

Lemma field_top h g l c k : field (World (<[l := c]> h) g) (VRef l) k = cell_get c k.
Proof. unfold field; cbn. by rewrite lookup_insert_eq. Qed.

Lemma wp_putv_store l k v w tr Q :
  Q (Ok ()) (store l k v w, tr) → wp (putv (VRef l) k v) (w, tr) Q.
Proof. done. Qed.

(** [options.k = options.k || 'https://login.windows.net/' + options.tenantID
    + suffix], followed by the rest of the constructor. *)
Lemma wp_default_url {B} (rest : M B) l c h g tr k suffix Q :
  primitive (cell_get c "tenantID") = true →
  wp rest (World (<[l := cell_put c k (derived_url c k suffix)]> h) g, tr) Q →
  wp (v ← getv (VRef l) k;
      v ← or_else v
            (tenantID ← getv (VRef l) "tenantID";
             s ← str_add (VString "https://login.windows.net/") tenantID;
             str_add s (VString suffix));
      putv (VRef l) k v;;
      rest)
     (World (<[l := c]> h) g, tr) Q.
Proof.
  intros Hprim HQ. unfold derived_url in HQ.
  apply wp_bind, wp_getv. cbn [nullish]. rewrite field_top.
  apply wp_bind. unfold or_else.
  destruct (truthy (cell_get c k)).
  - apply wp_ret. by apply wp_bind, Profile.wp_putv_top.
  - apply wp_bind, wp_getv. cbn [nullish]. rewrite field_top.
    apply wp_bind, wp_str_add; [done..|]. cbn [prim_string].
    apply wp_str_add; [done..|]. cbn [prim_string].
    by apply wp_bind, Profile.wp_putv_top.
Qed.

Lemma derived_url_put c k' v k suffix :
  k' ≠ k → k' ≠ "tenantID" →
  derived_url (cell_put c k' v) k suffix = derived_url c k suffix.
Proof. intros Hk Ht. unfold derived_url. by rewrite !cell_get_put_ne. Qed.

(** The run of the constructor on an options object. *)
Lemma Strategy_run D verify w tr l c :
  heap w !! l = Some c → primitive (cell_get c "tenantID") = true →
  ∃ t, heap w !! t = None ∧
    let wd := World (<[l := configured c]> (<[t := Cell None ∅]> (heap w))) (globals w) in
    let r := D (VRef t) (VRef l) verify wd in
    Strategy D (VRef l) verify (w, tr) =
      (match r.1 with Ok _ => Ok (VRef t) | Throw e => Throw e end,
       (match r.1 with Ok _ => store t "name" (VString "azure") r.2 | Throw _ => r.2 end,
        (tr ++ [Delegate (VRef t) (VRef l) verify wd])%list)).
Proof.
  intros Hl Hprim.
  assert (wp (Strategy D (VRef l) verify) (w, tr) (λ r' st',
    ∃ t, heap w !! t = None ∧
      let wd := World (<[l := configured c]> (<[t := Cell None ∅]> (heap w))) (globals w) in
      let r := D (VRef t) (VRef l) verify wd in
      (r', st') =
        (match r.1 with Ok _ => Ok (VRef t) | Throw e => Throw e end,
         (match r.1 with Ok _ => store t "name" (VString "azure") r.2 | Throw _ => r.2 end,
          (tr ++ [Delegate (VRef t) (VRef l) verify wd])%list)))) as H.
  { unfold Strategy, new_object.
    apply wp_bind, wp_alloc. intros t Ht.
    assert (t ≠ l) as Htl by (intros ->; congruence).
    apply wp_bind. unfold or_else at 1. cbn [truthy]. apply wp_ret.
    rewrite <- (insert_id (<[t := Cell None ∅]> (heap w)) l c)
      by (by rewrite lookup_insert_ne).
    apply wp_default_url; [done|].
    apply wp_default_url; [by rewrite cell_get_put_ne|].
    rewrite derived_url_put by done.
    apply wp_bind, wp_getv. cbn [nullish]. rewrite field_top.
    rewrite !cell_get_put_ne by done.
    apply wp_bind.
    assert (wp (or_else (cell_get c "scopeSeparator") (mret (VString ",")))
              = wp (mret (separator c) : M value)) as ->.
    { unfold or_else, separator. by destruct (truthy _). }
    apply wp_ret, wp_bind, Profile.wp_putv_top.
    fold (configured c).
    apply wp_bind, wp_call_delegate.
    set (wd := World (<[l := configured c]> (<[t := Cell None ∅]> (heap w))) (globals w)).
    destruct (D (VRef t) (VRef l) verify wd) as [[v|e] wD] eqn:ED; cbn [fst snd].
    - apply wp_bind, wp_putv_store, wp_ret. exists t. split; [done|].
      cbn zeta. fold wd. by rewrite ED.
    - exists t. split; [done|]. cbn zeta. fold wd. by rewrite ED. }
  apply wp_run in H as (r & st' & Hrun & t & Ht & E). exists t. split; [done|].
  cbn zeta in *. by rewrite Hrun, E.
Qed.

Lemma configured_fields c :
  cell_get (configured c) "authorizationURL"
    = derived_url c "authorizationURL" "/oauth2/authorize?api-version=1.0" ∧
  cell_get (configured c) "tokenURL"
    = derived_url c "tokenURL" "/oauth2/token?api-version=1.0" ∧
  cell_get (configured c) "scopeSeparator" = separator c.
Proof.
  unfold configured. split_and!.
  - rewrite !cell_get_put_ne by done. by apply cell_get_put_eq.
  - rewrite cell_get_put_ne by done. by apply cell_get_put_eq.
  - by apply cell_get_put_eq.
Qed.

Lemma Strategy_handoff D verify w tr l c :
  heap w !! l = Some c → primitive (cell_get c "tenantID") = true →
  ∃ this wd,
    (Strategy D (VRef l) verify (w, tr)).2.2
      = (tr ++ [Delegate this (VRef l) verify wd])%list ∧
    ∀ k, field wd (VRef l) k = cell_get (configured c) k.
Proof.
  intros Hl Hprim.
  destruct (Strategy_run D verify w tr l c Hl Hprim) as (t & Ht & Hrun).
  cbn zeta in Hrun. rewrite Hrun. cbn [snd].
  eexists _, _. split; [reflexivity|]. intros k. apply field_top.
Qed.

(** C4 (as amended): for every options object with a primitive (string,
    absent, ...) [tenantID], the authorization URL handed to the OAuth2
    delegate is the one of the options when that is truthy, and otherwise
    (absent, or falsy as the empty string is) the text
    [https://login.windows.net/] + tenantID +
    [/oauth2/authorize?api-version=1.0]; the token URL likewise, with
    [/oauth2/token?api-version=1.0], each decided on its own. *)
Theorem Strategy_derives_urls D verify w tr l c :
  heap w !! l = Some c → primitive (cell_get c "tenantID") = true →
  ∃ this wd,
    (Strategy D (VRef l) verify (w, tr)).2.2
      = (tr ++ [Delegate this (VRef l) verify wd])%list ∧
    field wd (VRef l) "authorizationURL"
      = (if truthy (cell_get c "authorizationURL") then cell_get c "authorizationURL"
         else VString (("https://login.windows.net/" +:+ prim_string (cell_get c "tenantID"))
                       +:+ "/oauth2/authorize?api-version=1.0")) ∧
    field wd (VRef l) "tokenURL"
      = (if truthy (cell_get c "tokenURL") then cell_get c "tokenURL"
         else VString (("https://login.windows.net/" +:+ prim_string (cell_get c "tenantID"))
                       +:+ "/oauth2/token?api-version=1.0")).
Proof.
  intros Hl Hprim.
  destruct (Strategy_handoff D verify w tr l c Hl Hprim) as (this & wd & Htr & Hf).
  destruct (configured_fields c) as (Ha & Ht & _).
  exists this, wd. by rewrite !Hf, Ha, Ht.
Qed.

Lemma Strategy_derives_urls_witness :
  ∃ this wd,
    (Strategy delegate_stub (VRef 1%positive) VUndefined (world_of options_tenant, [])).2.2
      = ([] ++ [Delegate this (VRef 1%positive) VUndefined wd])%list ∧
    field wd (VRef 1%positive) "authorizationURL"
      = VString "https://login.windows.net/T/oauth2/authorize?api-version=1.0" ∧
    field wd (VRef 1%positive) "tokenURL"
      = VString "https://login.windows.net/T/oauth2/token?api-version=1.0".
Proof.
  apply (Strategy_derives_urls delegate_stub VUndefined (world_of options_tenant) []
           1%positive options_tenant); reflexivity.
Defined.

(** C4 as stated fails: the options supply the empty string as their
    authorization URL and as their token URL, and the delegate receives the
    derived ones. *)
Lemma Strategy_replaces_empty_urls :
  ∃ this wd,
    (Strategy delegate_stub (VRef 1%positive) VUndefined
       (world_of options_empty_strings, [])).2.2
      = [Delegate this (VRef 1%positive) VUndefined wd] ∧
    props options_empty_strings !! "authorizationURL" = Some (VString EmptyString) ∧
    props options_empty_strings !! "tokenURL" = Some (VString EmptyString) ∧
    field wd (VRef 1%positive) "authorizationURL"
      = VString "https://login.windows.net/T/oauth2/authorize?api-version=1.0" ∧
    field wd (VRef 1%positive) "tokenURL"
      = VString "https://login.windows.net/T/oauth2/token?api-version=1.0".
Proof. eexists _, _. split; [by vm_compute|]. by vm_compute. Qed.

(** Explicit (truthy) URLs and separator reach the delegate unchanged. *)
Lemma Strategy_keeps_explicit :
  ∃ this wd,
    (Strategy delegate_stub (VRef 1%positive) VUndefined (world_of options_explicit, [])).2.2
      = [Delegate this (VRef 1%positive) VUndefined wd] ∧
    field wd (VRef 1%positive) "authorizationURL" = VString "https://a.example/authorize" ∧
    field wd (VRef 1%positive) "tokenURL" = VString "https://a.example/token" ∧
    field wd (VRef 1%positive) "scopeSeparator" = VString " ".
Proof. eexists _, _. split; [by vm_compute|]. by vm_compute. Qed.

Lemma same_but_refl keys c : same_but keys c c.
Proof. by split. Qed.

Lemma same_but_put keys c c' k v :
  k ∈ keys → same_but keys c c' → same_but keys c (cell_put c' k v).
Proof.
  intros Hk [He Hp]. split; [done|]. intros k' Hk'. cbn.
  rewrite lookup_insert_ne; [by apply Hp|]. by intros ->.
Qed.

Lemma same_but_get keys c c' k :
  same_but keys c c' → k ∉ keys → cell_get c' k = cell_get c k.
Proof. intros [He Hp] Hk. unfold cell_get. by rewrite He, (Hp k Hk). Qed.


(** [a + b] for a primitive [a]: the conversion of [b] may throw. *)
Lemma wp_str_add_right a b st Q :
  primitive a = true →
  (∀ e, Q (Throw e) st) →
  (∀ s, Q (Ok (VString (prim_string a +:+ s))) st) →
  wp (str_add a b) st Q.
Proof.
  intros Ha Hthrow Hok. unfold str_add.
  apply wp_bind, wp_to_string; [done|].
  apply wp_bind. unfold wp, to_string.
  destruct (to_string_aux _ _ _ b) as [s|e]; cbn; [apply Hok|apply Hthrow].
Qed.

Lemma url_set_put c k' v k suffix u :
  k' ≠ k → k' ≠ "tenantID" →
  url_set (cell_put c k' v) k suffix u → url_set c k suffix u.
Proof. intros Hk Ht. unfold url_set. by rewrite !cell_get_put_ne. Qed.

(** The defaulting of a URL when nothing is known of the tenant: the
    conversion of an object may throw, and then nothing has been written. *)
Lemma wp_default_url_any {B} (rest : M B) l c h g tr k suffix Q :
  (truthy (cell_get c k) = false → primitive (cell_get c "tenantID") = false →
   ∀ e, Q (Throw e) (World (<[l := c]> h) g, tr)) →
  (∀ v, url_set c k suffix v → wp rest (World (<[l := cell_put c k v]> h) g, tr) Q) →
  wp (v ← getv (VRef l) k;
      v ← or_else v
            (tenantID ← getv (VRef l) "tenantID";
             s ← str_add (VString "https://login.windows.net/") tenantID;
             str_add s (VString suffix));
      putv (VRef l) k v;;
      rest)
     (World (<[l := c]> h) g, tr) Q.
Proof.
  intros Hthrow Hrest.
  apply wp_bind, wp_getv. cbn [nullish]. rewrite field_top.
  apply wp_bind. unfold or_else.
  destruct (truthy (cell_get c k)) eqn:Ek.
  - apply wp_ret, wp_bind, Profile.wp_putv_top, Hrest. unfold url_set. by rewrite Ek.
  - apply wp_bind, wp_getv. cbn [nullish]. rewrite field_top.
    destruct (primitive (cell_get c "tenantID")) eqn:Ep.
    + apply wp_bind, wp_str_add; [done..|]. cbn [prim_string].
      apply wp_str_add; [done..|]. cbn [prim_string].
      apply wp_bind, Profile.wp_putv_top, Hrest. unfold url_set. rewrite Ek. eauto.
    + apply wp_bind, wp_str_add_right; [done|by apply Hthrow|]. intros s.
      cbn [prim_string].
      apply wp_str_add; [done..|]. cbn [prim_string].
      apply wp_bind, Profile.wp_putv_top, Hrest. unfold url_set. rewrite Ek.
      exists s. split; [done|]. by rewrite Ep.
Qed.

(** The run of the constructor on any options object: either it reaches
    the delegate, with the three options assigned, or the conversion of the
    tenant throws while a URL is derived. *)
Lemma Strategy_run_any D verify w tr l c :
  heap w !! l = Some c →
  ∃ t, heap w !! t = None ∧
    ((∃ a u,
        url_set c "authorizationURL" "/oauth2/authorize?api-version=1.0" a ∧
        url_set c "tokenURL" "/oauth2/token?api-version=1.0" u ∧
        let c' := cell_put (cell_put (cell_put c "authorizationURL" a) "tokenURL" u)
                    "scopeSeparator" (separator c) in
        let wd := World (<[l := c']> (<[t := Cell None ∅]> (heap w))) (globals w) in
        let r := D (VRef t) (VRef l) verify wd in
        Strategy D (VRef l) verify (w, tr) =
          (match r.1 with Ok _ => Ok (VRef t) | Throw e => Throw e end,
           (match r.1 with
            | Ok _ => store t "name" (VString "azure") r.2
            | Throw _ => r.2
            end,
            (tr ++ [Delegate (VRef t) (VRef l) verify wd])%list)))
     ∨ (primitive (cell_get c "tenantID") = false ∧
        (truthy (cell_get c "authorizationURL") = false
         ∨ truthy (cell_get c "tokenURL") = false) ∧
        ∃ e c', same_but ["authorizationURL"] c c' ∧
          Strategy D (VRef l) verify (w, tr) =
            (Throw e,
             (World (<[l := c']> (<[t := Cell None ∅]> (heap w))) (globals w), tr)))).
Proof.
  intros Hl.
  assert (wp (Strategy D (VRef l) verify) (w, tr) (λ r' st',
    ∃ t, heap w !! t = None ∧
      ((∃ a u,
          url_set c "authorizationURL" "/oauth2/authorize?api-version=1.0" a ∧
          url_set c "tokenURL" "/oauth2/token?api-version=1.0" u ∧
          let c' := cell_put (cell_put (cell_put c "authorizationURL" a) "tokenURL" u)
                      "scopeSeparator" (separator c) in
          let wd := World (<[l := c']> (<[t := Cell None ∅]> (heap w))) (globals w) in
          let r := D (VRef t) (VRef l) verify wd in
          (r', st') =
            (match r.1 with Ok _ => Ok (VRef t) | Throw e => Throw e end,
             (match r.1 with
              | Ok _ => store t "name" (VString "azure") r.2
              | Throw _ => r.2
              end,
              (tr ++ [Delegate (VRef t) (VRef l) verify wd])%list)))
       ∨ (primitive (cell_get c "tenantID") = false ∧
          (truthy (cell_get c "authorizationURL") = false
           ∨ truthy (cell_get c "tokenURL") = false) ∧
          ∃ e c', same_but ["authorizationURL"] c c' ∧
            (r', st') =
              (Throw e,
               (World (<[l := c']> (<[t := Cell None ∅]> (heap w))) (globals w), tr)))))) as H.
  { unfold Strategy, new_object.
    apply wp_bind, wp_alloc. intros t Ht.
    assert (t ≠ l) as Htl by (intros ->; congruence).
    apply wp_bind. unfold or_else at 1. cbn [truthy]. apply wp_ret.
    rewrite <- (insert_id (<[t := Cell None ∅]> (heap w)) l c)
      by (by rewrite lookup_insert_ne).
    apply wp_default_url_any.
    { intros Ha Hp e. exists t. split; [done|]. right. split_and!; [done|by left|].
      exists e, c. split; [apply same_but_refl|done]. }
    intros a Ha.
    apply wp_default_url_any.
    { rewrite !cell_get_put_ne by done. intros Hu Hp e.
      exists t. split; [done|]. right. split_and!; [done|by right|].
      exists e, (cell_put c "authorizationURL" a). split; [|done].
      apply same_but_put; [|apply same_but_refl]. by apply list_elem_of_singleton. }
    intros u Hu. apply url_set_put in Hu; [|done..].
    apply wp_bind, wp_getv. cbn [nullish]. rewrite field_top.
    rewrite !cell_get_put_ne by done.
    apply wp_bind.
    assert (wp (or_else (cell_get c "scopeSeparator") (mret (VString ",")))
              = wp (mret (separator c) : M value)) as ->.
    { unfold or_else, separator. by destruct (truthy _). }
    apply wp_ret, wp_bind, Profile.wp_putv_top.
    apply wp_bind, wp_call_delegate.
    match goal with |- context [D (VRef t) (VRef l) verify ?wd0] => set (wd := wd0) end.
    destruct (D (VRef t) (VRef l) verify wd) as [[v|e] wD] eqn:ED; cbn [fst snd].
    - apply wp_bind, wp_putv_store, wp_ret.
      exists t. split; [done|]. left. exists a, u. split_and!; [done..|].
      cbn zeta. fold wd. by rewrite ED.
    - exists t. split; [done|]. left. exists a, u. split_and!; [done..|].
      cbn zeta. fold wd. by rewrite ED. }
  apply wp_run in H as (r & st' & Hrun & t & Ht & E). exists t. split; [done|].
  rewrite Hrun. exact E.
Qed.

(** C8 (as amended): for every options object, either the constructor
    reaches the OAuth2 delegate, and the scope separator it hands over is
    the one of the options when that is truthy, and [","] otherwise (absent,
    or falsy as the empty string is); or, which needs a [tenantID] that is
    an object and a URL to derive from it, the conversion of the tenant
    throws, the delegate is not called and the separator is left as it
    was. *)
Theorem Strategy_default_separator D verify w tr l c :
  heap w !! l = Some c →
  (∃ this wd,
     (Strategy D (VRef l) verify (w, tr)).2.2
       = (tr ++ [Delegate this (VRef l) verify wd])%list ∧
     field wd (VRef l) "scopeSeparator"
       = (if truthy (cell_get c "scopeSeparator") then cell_get c "scopeSeparator"
          else VString ","))
  ∨ (primitive (cell_get c "tenantID") = false ∧
     (truthy (cell_get c "authorizationURL") = false
      ∨ truthy (cell_get c "tokenURL") = false) ∧
     ∃ e, (Strategy D (VRef l) verify (w, tr)).1 = Throw e ∧
          (Strategy D (VRef l) verify (w, tr)).2.2 = tr ∧
          field (Strategy D (VRef l) verify (w, tr)).2.1 (VRef l) "scopeSeparator"
            = cell_get c "scopeSeparator").
Proof.
  intros Hl.
  destruct (Strategy_run_any D verify w tr l c Hl)
    as (t & Ht & [(a & u & Ha & Hu & Hrun)|(Hp & Hfalsy & e & c' & Hsame & Hrun)]).
  - left. cbn zeta in Hrun. rewrite Hrun. cbn [snd].
    eexists _, _. split; [reflexivity|]. rewrite field_top. by apply cell_get_put_eq.
  - right. split_and!; [done..|]. exists e. rewrite Hrun. cbn [fst snd].
    split_and!; [done..|]. rewrite field_top. apply (same_but_get _ _ _ _ Hsame).
    intros Hk. by apply list_elem_of_singleton in Hk.
Qed.

Lemma Strategy_default_separator_witness :
  ∃ this wd,
    (Strategy delegate_stub (VRef 1%positive) VUndefined (world_of options_tenant, [])).2.2
      = ([] ++ [Delegate this (VRef 1%positive) VUndefined wd])%list ∧
    field wd (VRef 1%positive) "scopeSeparator"
      = (if truthy (cell_get options_tenant "scopeSeparator")
         then cell_get options_tenant "scopeSeparator"
         else VString ",").
Proof.
  destruct (Strategy_default_separator delegate_stub VUndefined (world_of options_tenant) []
              1%positive options_tenant eq_refl) as [H|[Hp _]]; [exact H|].
  vm_compute in Hp. discriminate Hp.
Defined.

(** C8 as stated fails: the options supply the empty string as their
    separator, and the delegate receives [","]. *)
Lemma Strategy_replaces_empty_separator :
  ∃ this wd,
    (Strategy delegate_stub (VRef 1%positive) VUndefined
       (world_of options_empty_strings, [])).2.2
      = [Delegate this (VRef 1%positive) VUndefined wd] ∧
    props options_empty_strings !! "scopeSeparator" = Some (VString EmptyString) ∧
    field wd (VRef 1%positive) "scopeSeparator" = VString ",".
Proof. eexists _, _. split; [by vm_compute|]. by vm_compute. Qed.

(** The other case of C8, run: the tenant is an object whose [toString] is
    the number 1, no URL is supplied; the constructor throws a [TypeError]
    at the first assignment and no separator is set. *)
Lemma Strategy_unprintable_tenant_example :
  let r := Strategy delegate_stub (VRef 1%positive) VUndefined
             (world_unprintable_tenant, []) in
  r.1 = Throw TypeError ∧ r.2.2 = [] ∧
  field r.2.1 (VRef 1%positive) "scopeSeparator" = VUndefined.
Proof. by vm_compute. Qed.




(** The caller's object, before and after, with a delegate that names the
    new strategy. *)
Lemma Strategy_mutates_options_example :
  heap (world_of options_tenant) !! 1%positive = Some options_tenant ∧
  heap (Strategy delegate_naming (VRef 1%positive) VUndefined
          (world_of options_tenant, [])).2.1 !! 1%positive
    = Some (Cell None
              {[ "tenantID" := VString "T"; "clientID" := VString "id"; "extra" := VBool true;
                 "authorizationURL"
                   := VString "https://login.windows.net/T/oauth2/authorize?api-version=1.0";
                 "tokenURL"
                   := VString "https://login.windows.net/T/oauth2/token?api-version=1.0";
                 "scopeSeparator" := VString "," ]}).
Proof. by vm_compute. Qed.

End Ctor.

(** ** More on [userProfile]: every run, for every parsed value *)

Module ProfileRuns.

Lemma reify_items_extends xs : ∀ h, extends h (reify_items reify xs h).2.
Proof.
  induction xs as [|x r IH]; intros h; cbn; [apply Parsed.extends_refl|].
  pose proof (Parsed.reify_extends x h) as Hx. destruct (reify x h) as [v h1].
  specialize (IH h1). destruct (reify_items reify r h1) as [vs h2].
  by eapply Parsed.extends_trans.
Qed.

Lemma extends_None h h' l : extends h h' → h' !! l = None → h !! l = None.
Proof.
  intros Hext Hl. destruct (h !! l) as [c|] eqn:E; [|done].
  apply Hext in E. congruence.
Qed.

Lemma claim_names_named k :
  k ∈ claim_names → array_index k = None ∧ String.eqb k "length" = false.
Proof.
  unfold claim_names. intros Hk.
  repeat (apply elem_of_cons in Hk as [->|Hk]; [done|]). by apply elem_of_nil in Hk.
Qed.

(** What [JSON.parse] returns for a text that is not [null]: a value that
    can be read from, fresh if it is an object, among the old objects. *)
Lemma reify_facts j h g :
  j ≠ JNull →
  ∃ tj hj, reify j h = (tj, hj) ∧ extends h hj ∧ nullish tj = false ∧
    (∀ l, tj = VRef l → h !! l = None ∧ is_Some (hj !! l)) ∧
    reads j (λ k, field (World hj g) tj k).
Proof.
  intros Hj. destruct j as [| b | n | s | xs | ms]; [done| | | | |].
  - exists (VBool b), h. split_and!; try done. apply Parsed.extends_refl.
  - exists (VNumber n), h. split_and!; try done. apply Parsed.extends_refl.
  - exists (VString s), h. split_and!; try done. apply Parsed.extends_refl.
  - pose proof (reify_items_extends xs h) as Hext.
    cbn [reify]. destruct (reify_items reify xs h) as [vs h']. cbn in Hext.
    assert (h' !! fresh (dom h') = None) as Hf by apply not_elem_of_dom, is_fresh.
    eexists _, _. split; [reflexivity|]. split_and!.
    + intros l c Hl. rewrite lookup_insert_ne; [by apply Hext|].
      intros <-. apply Hext in Hl. congruence.
    + done.
    + intros l [= <-]. split; [by eapply extends_None|]. rewrite lookup_insert_eq. by eexists.
    + intros k [Hi Hl]%claim_names_named. unfold field; cbn. rewrite lookup_insert_eq.
      unfold cell_get; cbn. by rewrite Hi, Hl.
  - destruct (Parsed.reify_object ms h) as (l & m & h' & -> & Hl & Hext & Hm).
    eexists _, _. split; [reflexivity|]. split_and!.
    + intros l' c Hl'. rewrite lookup_insert_ne; [by apply Hext|].
      intros <-. apply Hext in Hl'. congruence.
    + done.
    + intros l' [= <-]. split; [by eapply extends_None|]. rewrite lookup_insert_eq. by eexists.
    + intros k _. unfold carries, field; cbn. rewrite lookup_insert_eq.
      unfold cell_get; cbn.
      specialize (Hm k). destruct (member k ms) as [x|].
      * destruct Hm as (v & -> & Hv). intros q Hq. cbn. by apply Hv.
      * by rewrite Hm.
Qed.

Lemma reads_named j rd k :
  reads j rd → is_object j = false → k ∈ claim_names → rd k = VUndefined.
Proof. destruct j; try done; intros H _ Hk; apply (H k Hk). Qed.

Lemma reads_primitive j rd k :
  reads j rd → k ∈ claim_names →
  (match j with JObject ms => plain ms k | _ => true end) = true →
  primitive (rd k) = true.
Proof.
  intros Hr Hk Hp.
  destruct j as [| | | | |ms];
    try by (rewrite (reads_named _ rd k Hr)).
  specialize (Hr k Hk). unfold carries in Hr. unfold plain in Hp.
  destruct (member k ms) as [x|]; [|by rewrite Hr].
  destruct x; try discriminate; by rewrite (Hr _ eq_refl).
Qed.

Lemma claim_names_all :
  "oid" ∈ claim_names ∧ "tid" ∈ claim_names ∧ "unique_name" ∈ claim_names ∧
  "given_name" ∈ claim_names ∧ "family_name" ∈ claim_names ∧ "email" ∈ claim_names.
Proof. unfold claim_names. rewrite !elem_of_cons. tauto. Qed.

(** The handler, and the [return] after the [try]. *)
Lemma wp_handler done w tr (Q : outcome value → state → Prop) :
  Q (handled done w tr).1 (handled done w tr).2 →
  wp (console_log "Unable to parse oauth2 token for user profile";;
      ex ← global "ex";
      invoke done ex VNull) (w, tr)
     (λ r st', match r with
               | Ok _ => wp (mret VUndefined) st' Q
               | Throw e' => Q (Throw e') st'
               end).
Proof.
  unfold handled. intros HQ.
  unfold console_log. apply wp_bind, wp_emit, wp_bind, wp_global.
  destruct (globals w !! "ex") as [x|]; [|done].
  apply wp_invoke. cbn zeta in HQ.
  by destruct (done x VNull w) as [[v|e'] wd].
Qed.

(** The whole run of [userProfile] on a token whose payload parses to
    something other than [null]. *)
Lemma userProfile_run this tok done w tr text j :
  nullish this = false →
  payload tok = Some text →
  parse text = Some j →
  claim_set j = true →
  ∃ p tj h,
    heap w !! p = None ∧ extends (heap w) h ∧
    profile_of (World h (globals w)) (VRef p) tj (field w this "name") text ∧
    reads j (λ k, field (World h (globals w)) tj k) ∧
    userProfile this (VString tok) done (w, tr) =
      (let r := done VNull (VRef p) (World h (globals w)) in
       let tr' := (tr ++ [Call VNull (VRef p) (World h (globals w))])%list in
       match r.1 with
       | Ok _ => (Ok VUndefined, (r.2, tr'))
       | Throw _ => handled done r.2 tr'
       end).
Proof.
  intros Hthis Hpay Hparse Hcs.
  apply Profile.payload_split in Hpay as (seg & Hseg & ->).
  set (text := Buffer_toString (base64_decode seg)) in *.
  assert (wp (userProfile this (VString tok) done) (w, tr) (λ r' st',
    ∃ p tj h,
      heap w !! p = None ∧ extends (heap w) h ∧
      profile_of (World h (globals w)) (VRef p) tj (field w this "name") text ∧
      reads j (λ k, field (World h (globals w)) tj k) ∧
      (r', st') =
        (let r := done VNull (VRef p) (World h (globals w)) in
         let tr' := (tr ++ [Call VNull (VRef p) (World h (globals w))])%list in
         match r.1 with
         | Ok _ => (Ok VUndefined, (r.2, tr'))
         | Throw _ => handled done r.2 tr'
         end))) as H.
  { unfold userProfile.
    apply wp_bind, wp_getv. rewrite Hthis.
    apply wp_bind. unfold new_object. apply wp_alloc. intros p Hp.
    apply wp_bind, wp_try_catch.
    apply wp_bind, wp_lift. cbn [split_index]. rewrite Hseg. cbn [from_option].
    apply wp_bind, wp_lift. cbn [new_Buffer]. fold text.
    apply wp_bind, Profile.wp_putv_top.
    apply wp_bind, wp_JSON_parse. rewrite Hparse. cbn [heap globals].
    assert (j ≠ JNull) as Hj by (by intros ->).
    match goal with |- context [reify j ?h2] =>
      destruct (reify_facts j h2 (globals w) Hj)
        as (tj & hj & -> & Hext & Hn & Hfresh & Hreads) end.
    cbn [fst snd].
    pose proof (Hext p _ (lookup_insert_eq _ _ _)) as Hp'.
    assert (∀ l, tj = VRef l → l ≠ p) as Htp.
    { intros l Hl ->. apply Hfresh in Hl as [Hl _]. by rewrite lookup_insert_eq in Hl. }
    set (rd := λ k, field (World hj (globals w)) tj k) in *.
    assert (∀ c k, field (World (<[p := c]> hj) (globals w)) tj k = rd k) as Hrd.
    { intros c k. by apply Params.field_insert_ne. }
    assert (primitive (rd "given_name") = true) as Hg.
    { apply (reads_primitive j); [done|apply claim_names_all|]. destruct j; try done.
      cbn in Hcs. by apply andb_prop in Hcs as [? ?]. }
    assert (primitive (rd "family_name") = true) as Hf.
    { apply (reads_primitive j); [done|apply claim_names_all|]. destruct j; try done.
      cbn in Hcs. by apply andb_prop in Hcs as [? ?]. }
    rewrite <- (insert_id hj p _ Hp').
    apply wp_bind, Profile.wp_putv_top.
    do 3 (apply wp_bind, wp_getv; rewrite Hn, Hrd; apply wp_bind, Profile.wp_putv_top).
    apply wp_bind, wp_getv; rewrite Hn, Hrd.
    apply wp_bind, wp_str_add; [done..|]. cbn [prim_string].
    apply wp_bind, wp_getv; rewrite Hn, Hrd.
    apply wp_bind, wp_str_add; [done..|]. cbn [prim_string].
    apply wp_bind, Profile.wp_putv_top.
    do 2 (apply wp_bind, wp_getv; rewrite Hn, Hrd).
    apply wp_bind, wp_alloc. cbn [heap globals]. intros n Hnn.
    apply lookup_insert_None in Hnn as [Hnn Hpn].
    assert (∀ l, tj = VRef l → l ≠ n) as Htn.
    { intros l Hl ->. apply Hfresh in Hl as [_ [c Hc]]. congruence. }
    rewrite (insert_insert_ne _ n p) by done.
    apply wp_bind, Profile.wp_putv_top.
    apply wp_bind, wp_getv; rewrite Hn.
    rewrite (Params.field_insert_ne _ _ (globals w) p) by done.
    rewrite (Params.field_insert_ne _ _ (globals w) n) by done. fold (rd "email").
    apply wp_bind. unfold new_array. apply wp_alloc. cbn [heap globals]. intros e He.
    apply lookup_insert_None in He as [He Hpe].
    apply lookup_insert_None in He as [He Hne].
    assert (∀ l, tj = VRef l → l ≠ e) as Hte.
    { intros l Hl ->. apply Hfresh in Hl as [_ [c Hc]]. congruence. }
    rewrite (insert_insert_ne _ e p) by done.
    apply wp_bind, Profile.wp_putv_top.
    apply wp_invoke.
    match goal with |- context [done VNull (VRef p) (World ?hc ?g)] =>
      set (h := hc) end.
    assert (∀ k, field (World h (globals w)) tj k = rd k) as Hrdh.
    { intros k. subst h.
      rewrite (Params.field_insert_ne _ _ (globals w) p) by done.
      rewrite (Params.field_insert_ne _ _ (globals w) e) by done.
      by rewrite (Params.field_insert_ne _ _ (globals w) n) by done. }
    assert (extends (heap w) h) as Hframe.
    { intros l c Hl. subst h.
      assert (l ≠ p) by (intros ->; congruence).
      assert (hj !! l = Some c) as Hl' by (apply Hext; by rewrite lookup_insert_ne).
      rewrite !lookup_insert_ne; [done|intros ->; congruence..]. }
    assert (profile_of (World h (globals w)) (VRef p) tj (field w this "name") text)
      as Hprof.
    { unfold profile_of. rewrite !Hrdh.
      assert (∀ k, field (World h (globals w)) (VRef p) k
                   = default VUndefined
                       (props (cell_put (cell_put (cell_put (cell_put (cell_put (cell_put
                          (cell_put (cell_put
                             (Cell None {[ "provider" := field w this "name" ]})
                             "utf8" (VString text)) "json" tj) "id" (rd "oid"))
                          "orgId" (rd "tid")) "username" (rd "unique_name"))
                          "displayname"
                          (VString ((prim_string (rd "given_name") +:+ " ")
                                    +:+ prim_string (rd "family_name"))))
                          "name" (VRef n)) "emails" (VRef e)) !! k)) as Hfp.
      { intros k. subst h. unfold field; cbn [heap]. by rewrite lookup_insert_eq. }
      rewrite !Hfp. unfold cell_put; cbn [props elems].
      assert (∀ k, field (World h (globals w)) (VRef n) k
                   = default VUndefined
                       (({[ "familyName" := rd "family_name"; "givenName" := rd "given_name" ]}
                         : gmap string value) !! k)) as Hfn.
      { intros k. subst h. unfold field; cbn [heap].
        by rewrite !lookup_insert_ne, lookup_insert_eq by done. }
      assert (∀ k, field (World h (globals w)) (VRef e) k
                   = cell_get (Cell (Some [rd "email"]) ∅) k) as Hfe.
      { intros k. subst h. unfold field; cbn [heap].
        by rewrite !lookup_insert_ne, lookup_insert_eq by done. }
      split_and!; by simplify_map_eq. }
    assert (reads j (λ k, field (World h (globals w)) tj k)) as Hreadsh.
    { intros k Hk. rewrite Hrdh. by apply Hreads. }
    clearbody h.
    destruct (done VNull (VRef p) (World h (globals w))) as [[v|e0] wd] eqn:Ed;
      cbn [fst snd].
    - apply wp_ret. hnf. exists p, tj, h. rewrite Ed. by split_and!.
    - apply wp_handler. hnf. exists p, tj, h. rewrite Ed. cbn [fst snd].
      split_and!; try done. by destruct (handled done wd _). }
  apply wp_run in H as (r & st' & Hrun & p & tj & h & Hp & Hext & Hprof & Hreads & E).
  exists p, tj, h. split_and!; try done. by rewrite Hrun, E.
Qed.

(** The whole run on an access token that is not decoded. *)
Lemma userProfile_failed_run this accessToken done w tr :
  nullish this = false → fails_to_decode accessToken = true →
  ∃ w', globals w' = globals w ∧ extends (heap w) (heap w') ∧
    userProfile this accessToken done (w, tr) = handled done w' tr.
Proof.
  intros Hthis Hfail.
  assert (wp (userProfile this accessToken done) (w, tr) (λ r st',
    ∃ w', globals w' = globals w ∧ extends (heap w) (heap w') ∧
      (r, st') = handled done w' tr)) as H.
  { unfold userProfile.
    apply wp_bind, wp_getv. rewrite Hthis.
    apply wp_bind. unfold new_object. apply wp_alloc. intros p Hp.
    assert (∀ c, extends (heap w) (<[p := c]> (heap w))) as Hext.
    { intros c l c' Hl. rewrite lookup_insert_ne; [done|]. intros ->. congruence. }
    assert (∀ c, ∃ w', globals w' = globals w ∧ extends (heap w) (heap w') ∧
              ((handled done (World (<[p := c]> (heap w)) (globals w)) tr).1,
               (handled done (World (<[p := c]> (heap w)) (globals w)) tr).2)
              = handled done w' tr) as Hend.
    { intros c. exists (World (<[p := c]> (heap w)) (globals w)).
      split_and!; [reflexivity|apply Hext|]. by destruct (handled _ _ _). }
    apply wp_bind, wp_try_catch.
    apply wp_bind, wp_lift.
    destruct accessToken as [| | | | tok |]; cbn [split_index];
      try (apply wp_handler; apply Hend).
    unfold fails_to_decode, undecodable, payload in Hfail.
    destruct (split "." tok !! 1%nat) as [seg|];
      cbn [from_option fmap option_fmap option_map] in *.
    - apply wp_bind, wp_lift. cbn [new_Buffer].
      apply wp_bind, Profile.wp_putv_top.
      apply wp_bind, wp_JSON_parse.
      destruct (parse (Buffer_toString (base64_decode seg))) as [[]|]; try discriminate.
      + cbn [reify fst snd heap globals].
        apply wp_bind, Profile.wp_putv_top.
        apply wp_bind, wp_getv. cbn [nullish].
        apply wp_handler, Hend.
      + apply wp_handler, Hend.
    - apply wp_bind, wp_lift. cbn [new_Buffer].
      apply wp_handler, Hend. }
  apply wp_run in H as (r & st' & Hrun & w' & Hg & Hext & E).
  exists w'. split_and!; [done..|]. by rewrite Hrun.
Qed.

Lemma handled_trace done w tr :
  ∃ rest, (handled done w tr).2.2
          = (tr ++ Log "Unable to parse oauth2 token for user profile" :: rest)%list.
Proof.
  unfold handled. destruct (globals w !! "ex") as [x|]; cbn.
  - exists [Call x VNull w]. by rewrite <- app_assoc.
  - by exists [].
Qed.

(** On a decoded token the first event is the call with the profile. *)
Lemma run_trace (done : value → value → foreign) p wc tr (r : outcome value * state) :
  r = (let d := done VNull (VRef p) wc in
       let tr' := (tr ++ [Call VNull (VRef p) wc])%list in
       match d.1 with
       | Ok _ => (Ok VUndefined, (d.2, tr'))
       | Throw _ => handled done d.2 tr'
       end) →
  ∃ rest, r.2.2 = (tr ++ Call VNull (VRef p) wc :: rest)%list.
Proof.
  intros ->. cbn zeta. destruct (done VNull (VRef p) wc) as [[v|e] wd]; cbn [fst snd].
  - by exists [].
  - destruct (handled_trace done wd (tr ++ [Call VNull (VRef p) wc])) as [rest ->].
    eexists. by rewrite <- app_assoc.
Qed.

Lemma split_no_dot s : no_dot s = true → split "." s = [s].
Proof.
  induction s as [|c s IH]; cbn [split no_dot append]; [done|].
  intros [Hc Hs]%andb_prop. apply negb_true_iff in Hc. rewrite Hc, (IH Hs). done.
Qed.

Lemma split_dot s r : no_dot s = true → split "." (s +:+ String "." r) = s :: split "." r.
Proof.
  induction s as [|c s IH]; [done|].
  intros [Hc Hs]%andb_prop. apply negb_true_iff in Hc.
  change (String c s +:+ String "." r) with (String c (s +:+ String "." r)).
  cbn [split]. rewrite Hc, (IH Hs). done.
Qed.

Lemma userProfile_ext this done st t1 t2 :
  split "." t1 !! 1%nat = split "." t2 !! 1%nat →
  userProfile this (VString t1) done st = userProfile this (VString t2) done st.
Proof. intros H. unfold userProfile, split_index. by rewrite H. Qed.

(** X5: of the access token, [userProfile] reads the second segment and
    nothing else: the header, the signature and any further segment do not
    matter, and a token without a signature runs exactly as the signed one
    (nothing is verified). *)
Theorem userProfile_reads_second_segment_only this done st hdr hdr' seg rest :
  no_dot hdr = true → no_dot hdr' = true → no_dot seg = true →
  userProfile this (VString (hdr +:+ String "." (seg +:+ String "." rest))) done st
    = userProfile this (VString (hdr' +:+ String "." seg)) done st.
Proof.
  intros Hh Hh' Hs. apply userProfile_ext.
  rewrite !split_dot by done. by rewrite (split_no_dot seg).
Qed.

Lemma userProfile_reads_second_segment_only_witness :
  userProfile (VRef 1%positive) (VString token_full) returns (world_strategy, [])
    = userProfile (VRef 1%positive) (VString token_full_unsigned) returns (world_strategy, []).
Proof.
  apply (userProfile_reads_second_segment_only (VRef 1%positive) returns (world_strategy, [])
           "h" "other"
           "eyJvaWQiOiJvMSIsInRpZCI6InQxIiwidW5pcXVlX25hbWUiOiJhbm5AZXhhbXBsZS5uZXQiLCJnaXZlbl9uYW1lIjoiQW5uIiwiZmFtaWx5X25hbWUiOiJMZWUiLCJlbWFpbCI6ImFubkBleGFtcGxlLm9yZyJ9"
           "s"); reflexivity.
Defined.

(** X6: whatever the types of the claims, the profile handed to the
    callback keeps the decoded text under [utf8] and the parsed value itself
    under [json], has the [name] of the strategy as [provider], and its
    fields are the very values of the claims of [json] (the same reference
    when a claim is an object): [id] is [json.oid], [orgId] is [json.tid],
    [username] is [json.unique_name], [name.givenName] and
    [name.familyName] are [json.given_name] and [json.family_name], and
    [emails] is an array of length one holding [json.email]. On [json],
    each of the six claims reads [undefined] when the token lacks it, and
    its value when that is a string, a boolean, [null] or a number (the
    binary64 value of the numeral). *)
Theorem userProfile_profile_mirrors_json this tok done w tr text j :
  nullish this = false →
  payload tok = Some text →
  parse text = Some j →
  claim_set j = true →
  ∃ p wc rest,
    (userProfile this (VString tok) done (w, tr)).2.2
      = (tr ++ Call VNull (VRef p) wc :: rest)%list ∧
    field wc (VRef p) "provider" = field w this "name" ∧
    field wc (VRef p) "utf8" = VString text ∧
    reads j (λ k, field wc (field wc (VRef p) "json") k) ∧
    field wc (VRef p) "id" = field wc (field wc (VRef p) "json") "oid" ∧
    field wc (VRef p) "orgId" = field wc (field wc (VRef p) "json") "tid" ∧
    field wc (VRef p) "username" = field wc (field wc (VRef p) "json") "unique_name" ∧
    field wc (field wc (VRef p) "name") "givenName"
      = field wc (field wc (VRef p) "json") "given_name" ∧
    field wc (field wc (VRef p) "name") "familyName"
      = field wc (field wc (VRef p) "json") "family_name" ∧
    field wc (field wc (VRef p) "emails") "0"
      = field wc (field wc (VRef p) "json") "email" ∧
    field wc (field wc (VRef p) "emails") "length" = VNumber (Decimal 1 0).
Proof.
  intros Hthis Hpay Hparse Hcs.
  destruct (userProfile_run this tok done w tr text j)
    as (p & tj & h & Hp & Hext & Hprof & Hreads & Hrun); [done..|].
  destruct (run_trace done p (World h (globals w)) tr _ Hrun) as [rest Htr].
  destruct Hprof as (F1 & F2 & F3 & F4 & F5 & F6 & F7 & F8 & F9 & F10 & F11 & F12).
  exists p, (World h (globals w)), rest. rewrite F3. by split_and!.
Qed.

Lemma userProfile_profile_mirrors_json_witness :
  ∃ p wc rest,
    (userProfile (VRef 1%positive) (VString token_nested) returns (world_strategy, [])).2.2
      = ([] ++ Call VNull (VRef p) wc :: rest)%list ∧
    field wc (VRef p) "provider" = field world_strategy (VRef 1%positive) "name" ∧
    field wc (VRef p) "utf8"
      = VString (Buffer_toString
                   (base64_decode "eyJvaWQiOnsiYSI6MX0sImdpdmVuX25hbWUiOiJBbm4ifQ==")) ∧
    reads (JObject [("oid", JObject [("a", JNumber (Decimal 1 0))]);
                    ("given_name", JString "Ann")])
          (λ k, field wc (field wc (VRef p) "json") k) ∧
    field wc (VRef p) "id" = field wc (field wc (VRef p) "json") "oid" ∧
    field wc (VRef p) "orgId" = field wc (field wc (VRef p) "json") "tid" ∧
    field wc (VRef p) "username" = field wc (field wc (VRef p) "json") "unique_name" ∧
    field wc (field wc (VRef p) "name") "givenName"
      = field wc (field wc (VRef p) "json") "given_name" ∧
    field wc (field wc (VRef p) "name") "familyName"
      = field wc (field wc (VRef p) "json") "family_name" ∧
    field wc (field wc (VRef p) "emails") "0"
      = field wc (field wc (VRef p) "json") "email" ∧
    field wc (field wc (VRef p) "emails") "length" = VNumber (Decimal 1 0).
Proof.
  apply (userProfile_profile_mirrors_json (VRef 1%positive) token_nested returns
           world_strategy []
           (Buffer_toString (base64_decode "eyJvaWQiOnsiYSI6MX0sImdpdmVuX25hbWUiOiJBbm4ifQ=="))
           (JObject [("oid", JObject [("a", JNumber (Decimal 1 0))]);
                     ("given_name", JString "Ann")]));
    reflexivity.
Defined.

(** [token_nested], run: [id] is the reference that [json.oid] is. *)
Lemma userProfile_nested_example :
  let r := userProfile (VRef 1%positive) (VString token_nested) returns (world_strategy, []) in
  ∃ wc, r.2.2 = [Call VNull (VRef 2%positive) wc] ∧
        field wc (VRef 2%positive) "id" = VRef 3%positive ∧
        field wc (field wc (VRef 2%positive) "json") "oid" = VRef 3%positive ∧
        field wc (VRef 3%positive) "a" = VNumber (Decimal 1 0).
Proof. vm_compute. eexists. split; [reflexivity|]. by vm_compute. Qed.

(** A claim that is a number is the binary64 value of its numeral: the
    [oid] 9007199254740993 is read as 9007199254740992. *)
Lemma userProfile_big_oid_example :
  let r := userProfile (VRef 1%positive) (VString token_big_oid) returns (world_strategy, []) in
  ∃ wc, r.2.2 = [Call VNull (VRef 2%positive) wc] ∧
        field wc (VRef 2%positive) "id" = VNumber (Decimal 9007199254740992 0) ∧
        prim_string (field wc (VRef 2%positive) "id") = "9007199254740992".
Proof. vm_compute. eexists. split; [reflexivity|]. by vm_compute. Qed.

(** X7: the payload need not be an object. When it parses to a number, a
    string, a boolean or an array, the callback still gets [null] and a
    profile; all six fields read [undefined] and [displayname] is the text
    [undefined undefined]. *)
Theorem userProfile_accepts_any_json this tok done w tr text j :
  nullish this = false →
  payload tok = Some text →
  parse text = Some j →
  j ≠ JNull → is_object j = false →
  ∃ p wc rest,
    (userProfile this (VString tok) done (w, tr)).2.2
      = (tr ++ Call VNull (VRef p) wc :: rest)%list ∧
    field wc (VRef p) "id" = VUndefined ∧
    field wc (VRef p) "orgId" = VUndefined ∧
    field wc (VRef p) "username" = VUndefined ∧
    field wc (field wc (VRef p) "name") "givenName" = VUndefined ∧
    field wc (field wc (VRef p) "name") "familyName" = VUndefined ∧
    field wc (field wc (VRef p) "emails") "0" = VUndefined ∧
    field wc (VRef p) "displayname" = VString "undefined undefined".
Proof.
  intros Hthis Hpay Hparse Hj Ho.
  destruct (userProfile_run this tok done w tr text j)
    as (p & tj & h & Hp & Hext & Hprof & Hreads & Hrun); [done..|by destruct j|].
  destruct (run_trace done p (World h (globals w)) tr _ Hrun) as [rest Htr].
  destruct Hprof as (F1 & F2 & F3 & F4 & F5 & F6 & F7 & F8 & F9 & F10 & F11 & F12).
  exists p, (World h (globals w)), rest.
  rewrite F4, F5, F6, F7, F9, F10, F11.
  rewrite !(reads_named j _ _ Hreads Ho) by apply claim_names_all. by split_and!.
Qed.

Lemma userProfile_accepts_any_json_witness :
  ∃ p wc rest,
    (userProfile (VRef 1%positive) (VString token_number) returns (world_strategy, [])).2.2
      = ([] ++ Call VNull (VRef p) wc :: rest)%list ∧
    field wc (VRef p) "id" = VUndefined ∧
    field wc (VRef p) "orgId" = VUndefined ∧
    field wc (VRef p) "username" = VUndefined ∧
    field wc (field wc (VRef p) "name") "givenName" = VUndefined ∧
    field wc (field wc (VRef p) "name") "familyName" = VUndefined ∧
    field wc (field wc (VRef p) "emails") "0" = VUndefined ∧
    field wc (VRef p) "displayname" = VString "undefined undefined".
Proof.
  apply (userProfile_accepts_any_json (VRef 1%positive) token_number returns
           world_strategy [] (Buffer_toString (base64_decode "NDI="))
           (JNumber (Decimal 42 0))); (reflexivity || discriminate).
Defined.

(** X8: up to the call of the callback, [userProfile] writes to nothing
    that existed: the profile is a new object, every object of the heap
    (the strategy itself among them) is as it was, and so are the globals. *)
Theorem userProfile_touches_nothing this tok done w tr text j :
  nullish this = false →
  payload tok = Some text →
  parse text = Some j →
  claim_set j = true →
  ∃ p wc rest,
    (userProfile this (VString tok) done (w, tr)).2.2
      = (tr ++ Call VNull (VRef p) wc :: rest)%list ∧
    heap w !! p = None ∧
    globals wc = globals w ∧
    ∀ l c, heap w !! l = Some c → heap wc !! l = Some c.
Proof.
  intros Hthis Hpay Hparse Hcs.
  destruct (userProfile_run this tok done w tr text j)
    as (p & tj & h & Hp & Hext & Hprof & Hreads & Hrun); [done..|].
  destruct (run_trace done p (World h (globals w)) tr _ Hrun) as [rest Htr].
  exists p, (World h (globals w)), rest. by split_and!.
Qed.

Lemma userProfile_touches_nothing_witness :
  ∃ p wc rest,
    (userProfile (VRef 1%positive) (VString token_full) returns (world_strategy, [])).2.2
      = ([] ++ Call VNull (VRef p) wc :: rest)%list ∧
    heap world_strategy !! p = None ∧
    globals wc = globals world_strategy ∧
    ∀ l c, heap world_strategy !! l = Some c → heap wc !! l = Some c.
Proof.
  apply (userProfile_touches_nothing (VRef 1%positive) token_full returns world_strategy []
           (Buffer_toString (base64_decode
              "eyJvaWQiOiJvMSIsInRpZCI6InQxIiwidW5pcXVlX25hbWUiOiJhbm5AZXhhbXBsZS5uZXQiLCJnaXZlbl9uYW1lIjoiQW5uIiwiZmFtaWx5X25hbWUiOiJMZWUiLCJlbWFpbCI6ImFubkBleGFtcGxlLm9yZyJ9"))
           (JObject claims_full)); reflexivity.
Defined.

(** X9: the call of the callback with the profile sits inside the [try].
    When that call throws, the exception is caught: the message about an
    unparsable token is logged although the token was parsed, and, no
    global [ex] existing then, what [userProfile] throws is the
    [ReferenceError] for [ex], not what the callback threw. *)
Theorem userProfile_masks_callback_error this tok done w tr text j :
  nullish this = false →
  payload tok = Some text →
  parse text = Some j →
  claim_set j = true →
  ∃ p wc rest,
    (userProfile this (VString tok) done (w, tr)).2.2
      = (tr ++ Call VNull (VRef p) wc :: rest)%list ∧
    globals wc = globals w ∧
    ∀ e, (done VNull (VRef p) wc).1 = Throw e →
         globals (done VNull (VRef p) wc).2 !! "ex" = None →
         userProfile this (VString tok) done (w, tr) =
           (Throw (ReferenceError "ex"),
            ((done VNull (VRef p) wc).2,
             (tr ++ [Call VNull (VRef p) wc;
                     Log "Unable to parse oauth2 token for user profile"])%list)).
Proof.
  intros Hthis Hpay Hparse Hcs.
  destruct (userProfile_run this tok done w tr text j)
    as (p & tj & h & Hp & Hext & Hprof & Hreads & Hrun); [done..|].
  destruct (run_trace done p (World h (globals w)) tr _ Hrun) as [rest Htr].
  exists p, (World h (globals w)), rest. split_and!; [done..|].
  intros e He Hex. rewrite Hrun. cbn zeta. rewrite He. unfold handled. rewrite Hex.
  by rewrite <- app_assoc.
Qed.

Lemma userProfile_masks_callback_error_witness :
  ∃ p wc,
    userProfile (VRef 1%positive) (VString token_full) rethrows (world_strategy, []) =
      (Throw (ReferenceError "ex"),
       ((rethrows VNull (VRef p) wc).2,
        ([] ++ [Call VNull (VRef p) wc;
                Log "Unable to parse oauth2 token for user profile"])%list)).
Proof.
  destruct (userProfile_masks_callback_error (VRef 1%positive) token_full rethrows
              world_strategy []
              (Buffer_toString (base64_decode
                 "eyJvaWQiOiJvMSIsInRpZCI6InQxIiwidW5pcXVlX25hbWUiOiJhbm5AZXhhbXBsZS5uZXQiLCJnaXZlbl9uYW1lIjoiQW5uIiwiZmFtaWx5X25hbWUiOiJMZWUiLCJlbWFpbCI6ImFubkBleGFtcGxlLm9yZyJ9"))
              (JObject claims_full) eq_refl eq_refl eq_refl eq_refl)
    as (p & wc & rest & Htr & Hg & H).
  exists p, wc. apply (H (Raised VNull) eq_refl).
  change (globals wc !! "ex" = None). rewrite Hg. reflexivity.
Defined.

(** X10: when the call of the callback with the profile throws and a
    global [ex] exists then, the callback is invoked a second time, with
    that global as the error and [null] as the profile. *)
Theorem userProfile_calls_back_twice this tok done w tr text j :
  nullish this = false →
  payload tok = Some text →
  parse text = Some j →
  claim_set j = true →
  ∃ p wc rest,
    (userProfile this (VString tok) done (w, tr)).2.2
      = (tr ++ Call VNull (VRef p) wc :: rest)%list ∧
    globals wc = globals w ∧
    ∀ e x, (done VNull (VRef p) wc).1 = Throw e →
           globals (done VNull (VRef p) wc).2 !! "ex" = Some x →
           (userProfile this (VString tok) done (w, tr)).2.2 =
             (tr ++ [Call VNull (VRef p) wc;
                     Log "Unable to parse oauth2 token for user profile";
                     Call x VNull (done VNull (VRef p) wc).2])%list.
Proof.
  intros Hthis Hpay Hparse Hcs.
  destruct (userProfile_run this tok done w tr text j)
    as (p & tj & h & Hp & Hext & Hprof & Hreads & Hrun); [done..|].
  destruct (run_trace done p (World h (globals w)) tr _ Hrun) as [rest Htr].
  exists p, (World h (globals w)), rest. split_and!; [done..|].
  intros e x He Hex. rewrite Hrun. cbn zeta. rewrite He. unfold handled. rewrite Hex.
  cbn. by rewrite <- !app_assoc.
Qed.

Lemma userProfile_calls_back_twice_witness :
  ∃ p wc,
    (userProfile (VRef 1%positive) (VString token_full) rethrows
       (world_with_ex VNull, [])).2.2 =
      ([] ++ [Call VNull (VRef p) wc;
              Log "Unable to parse oauth2 token for user profile";
              Call VNull VNull (rethrows VNull (VRef p) wc).2])%list.
Proof.
  destruct (userProfile_calls_back_twice (VRef 1%positive) token_full rethrows
              (world_with_ex VNull) []
              (Buffer_toString (base64_decode
                 "eyJvaWQiOiJvMSIsInRpZCI6InQxIiwidW5pcXVlX25hbWUiOiJhbm5AZXhhbXBsZS5uZXQiLCJnaXZlbl9uYW1lIjoiQW5uIiwiZmFtaWx5X25hbWUiOiJMZWUiLCJlbWFpbCI6ImFubkBleGFtcGxlLm9yZyJ9"))
              (JObject claims_full) eq_refl eq_refl eq_refl eq_refl)
    as (p & wc & rest & Htr & Hg & H).
  exists p, wc. apply (H (Raised VNull) VNull eq_refl).
  change (globals wc !! "ex" = Some VNull). rewrite Hg. reflexivity.
Defined.

(** X11: when a global [ex] exists, a token that cannot be decoded does
    reach the callback, once, after the message is logged: with the value
    of that global as the error, whatever it is, and [null] as the profile;
    [userProfile] then returns or throws as the callback does. *)
Theorem userProfile_reports_global_ex this tok done w tr x :
  nullish this = false → undecodable tok = true → globals w !! "ex" = Some x →
  ∃ w', globals w' = globals w ∧
    userProfile this (VString tok) done (w, tr) =
      (match (done x VNull w').1 with
       | Ok _ => Ok VUndefined
       | Throw e => Throw e
       end,
       ((done x VNull w').2,
        (tr ++ [Log "Unable to parse oauth2 token for user profile";
                Call x VNull w'])%list)).
Proof.
  intros Hthis Hun Hex.
  destruct (userProfile_failed_run this (VString tok) done w tr)
    as (w' & Hg & _ & Hrun); [done..|].
  exists w'. split; [done|]. rewrite Hrun. unfold handled. rewrite Hg, Hex.
  cbn zeta. by rewrite <- app_assoc.
Qed.

Lemma userProfile_reports_global_ex_witness :
  ∃ w', globals w' = globals (world_with_ex (VString "stale")) ∧
    userProfile (VRef 1%positive) (VString token_one_segment) returns
      (world_with_ex (VString "stale"), []) =
      (match (returns (VString "stale") VNull w').1 with
       | Ok _ => Ok VUndefined
       | Throw e => Throw e
       end,
       ((returns (VString "stale") VNull w').2,
        ([] ++ [Log "Unable to parse oauth2 token for user profile";
                Call (VString "stale") VNull w'])%list)).
Proof.
  apply (userProfile_reports_global_ex (VRef 1%positive) token_one_segment returns
           (world_with_ex (VString "stale")) [] (VString "stale")); reflexivity.
Defined.

(** X12: an access token that is not a string ([undefined], a number, an
    object) is handled as one that cannot be decoded: the message is
    logged and, no global [ex] existing, the [ReferenceError] is thrown
    without the callback being invoked. (The objects of the heap hold data
    only, so none has a [split] method.) *)
Theorem userProfile_non_string_token this accessToken done w tr :
  nullish this = false → (∀ s, accessToken ≠ VString s) → globals w !! "ex" = None →
  ∃ w', globals w' = globals w ∧
    userProfile this accessToken done (w, tr) =
      (Throw (ReferenceError "ex"),
       (w', (tr ++ [Log "Unable to parse oauth2 token for user profile"])%list)).
Proof.
  intros Hthis Hns Hex.
  destruct (userProfile_failed_run this accessToken done w tr)
    as (w' & Hg & _ & Hrun); [done| |].
  { destruct accessToken; try done. by destruct (Hns s). }
  exists w'. split; [done|]. rewrite Hrun. unfold handled. by rewrite Hg, Hex.
Qed.

Lemma userProfile_non_string_token_witness :
  ∃ w', globals w' = globals world_strategy ∧
    userProfile (VRef 1%positive) VUndefined returns (world_strategy, []) =
      (Throw (ReferenceError "ex"),
       (w', ([] ++ [Log "Unable to parse oauth2 token for user profile"])%list)).
Proof.
  apply (userProfile_non_string_token (VRef 1%positive) VUndefined returns
           world_strategy []); (reflexivity || discriminate).
Defined.

(** X17: when the token decodes and the callback returns, the callback has
    been invoked exactly once, with [null] and the profile; nothing is
    logged, and [userProfile] returns [undefined] whatever the callback
    returned. *)
Theorem userProfile_calls_back_once this tok done w tr text j :
  nullish this = false →
  payload tok = Some text →
  parse text = Some j →
  claim_set j = true →
  (∀ prof w0, ∃ v, (done VNull prof w0).1 = Ok v) →
  ∃ p wc,
    userProfile this (VString tok) done (w, tr) =
      (Ok VUndefined,
       ((done VNull (VRef p) wc).2, (tr ++ [Call VNull (VRef p) wc])%list)).
Proof.
  intros Hthis Hpay Hparse Hcs Hreturns.
  destruct (userProfile_run this tok done w tr text j)
    as (p & tj & h & Hp & Hext & Hprof & Hreads & Hrun); [done..|].
  exists p, (World h (globals w)). rewrite Hrun. cbn zeta.
  destruct (Hreturns (VRef p) (World h (globals w))) as [v Hv]. by rewrite Hv.
Qed.

Lemma userProfile_calls_back_once_witness :
  ∃ p wc,
    userProfile (VRef 1%positive) (VString token_oid_only) returns (world_strategy, []) =
      (Ok VUndefined,
       ((returns VNull (VRef p) wc).2, ([] ++ [Call VNull (VRef p) wc])%list)).
Proof.
  apply (userProfile_calls_back_once (VRef 1%positive) token_oid_only returns
           world_strategy []
           (Buffer_toString (base64_decode "eyJvaWQiOiJvMSJ9"))
           (JObject [("oid", JString "o1")])); try reflexivity.
  intros prof w0. eexists. reflexivity.
Defined.

End ProfileRuns.

(** ** More on the constructor *)

Module CtorMore.

Lemma derived_url_truthy c k suffix : truthy (derived_url c k suffix) = true.
Proof. unfold derived_url. by destruct (truthy (cell_get c k)) eqn:E. Qed.

Lemma separator_truthy c : truthy (separator c) = true.
Proof. unfold separator. by destruct (truthy (cell_get c "scopeSeparator")) eqn:E. Qed.

Lemma derived_url_kept c k suffix :
  truthy (cell_get c k) = true → derived_url c k suffix = cell_get c k.
Proof. intros H. unfold derived_url. by rewrite H. Qed.

Lemma field_store_eq w t k v :
  is_Some (heap w !! t) → array_index k = None → String.eqb k "length" = false →
  field (store t k v w) (VRef t) k = v.
Proof.
  intros [c Hc] Hi Hl. unfold store. rewrite Hc. rewrite Ctor.field_top.
  by apply Ctor.cell_get_put_eq.
Qed.

Lemma heap_store_ne w t k v l : t ≠ l → heap (store t k v w) !! l = heap w !! l.
Proof.
  intros Hne. unfold store. destruct (heap w !! t); [|done]. cbn.
  by rewrite lookup_insert_ne.
Qed.

Lemma delegate_naming_keeps_objects this o v w0 (l0 : loc) :
  is_Some (heap w0 !! l0) → is_Some (heap (delegate_naming this o v w0).2 !! l0).
Proof.
  intros H. destruct this; try done. cbn. unfold store.
  destruct (heap w0 !! l) eqn:E; [|done]. cbn.
  destruct (decide (l = l0)) as [->|Hne].
  - by rewrite lookup_insert_eq.
  - by rewrite lookup_insert_ne.
Qed.

(** X1: constructed with options that are absent or otherwise falsy
    ([undefined], [null], [false], [0], the empty string), the strategy
    makes an options object of its own and hands that to the OAuth2
    delegate: it has exactly three properties, the two URLs spelling the
    tenant as [undefined], and the separator [,]. *)
Theorem Strategy_without_options D options verify w tr :
  truthy options = false →
  ∃ t o wd, t ≠ o ∧ heap w !! t = None ∧ heap w !! o = None ∧
    (Strategy D options verify (w, tr)).2.2
      = (tr ++ [Delegate (VRef t) (VRef o) verify wd])%list ∧
    heap wd !! o = Some (Cell None
      {[ "authorizationURL" :=
           VString "https://login.windows.net/undefined/oauth2/authorize?api-version=1.0";
         "tokenURL" :=
           VString "https://login.windows.net/undefined/oauth2/token?api-version=1.0";
         "scopeSeparator" := VString "," ]}).
Proof.
  intros Hfalsy.
  enough (wp (Strategy D options verify) (w, tr) (λ _ st',
    ∃ t o wd, t ≠ o ∧ heap w !! t = None ∧ heap w !! o = None ∧
      st'.2 = (tr ++ [Delegate (VRef t) (VRef o) verify wd])%list ∧
      heap wd !! o = Some (configured (Cell None ∅)))) by done.
  unfold Strategy, new_object.
  apply wp_bind, wp_alloc. intros t Ht.
  apply wp_bind. unfold or_else at 1. rewrite Hfalsy.
  apply wp_alloc. intros o Ho. cbn [heap globals] in *.
  assert (t ≠ o) as Hto by (intros ->; by rewrite lookup_insert_eq in Ho).
  rewrite lookup_insert_ne in Ho by done.
  apply Ctor.wp_default_url; [done|].
  apply Ctor.wp_default_url; [done|].
  rewrite Ctor.derived_url_put by done.
  apply wp_bind, wp_getv. cbn [nullish]. rewrite Ctor.field_top.
  apply wp_bind. unfold or_else. cbn [truthy cell_get]. apply wp_ret.
  apply wp_bind, Profile.wp_putv_top.
  apply wp_bind, wp_call_delegate.
  match goal with |- context [D (VRef t) (VRef o) verify ?wd0] =>
    set (wd := wd0); destruct (D (VRef t) (VRef o) verify wd) as [[v|e] wD] end;
    cbn [fst snd].
  - apply wp_bind, Ctor.wp_putv_store, wp_ret.
    exists t, o, wd. split_and!; [done..|]. apply lookup_insert_eq.
  - exists t, o, wd. split_and!; [done..|]. apply lookup_insert_eq.
Qed.

Lemma Strategy_without_options_witness :
  ∃ t o wd, t ≠ o ∧ heap world_strategy !! t = None ∧ heap world_strategy !! o = None ∧
    (Strategy delegate_stub VUndefined VNull (world_strategy, [])).2.2
      = ([] ++ [Delegate (VRef t) (VRef o) VNull wd])%list ∧
    heap wd !! o = Some (Cell None
      {[ "authorizationURL" :=
           VString "https://login.windows.net/undefined/oauth2/authorize?api-version=1.0";
         "tokenURL" :=
           VString "https://login.windows.net/undefined/oauth2/token?api-version=1.0";
         "scopeSeparator" := VString "," ]}).
Proof.
  apply (Strategy_without_options delegate_stub VUndefined VNull world_strategy []).
  reflexivity.
Defined.

(** X2: the constructor hands the OAuth2 delegate a fresh object as
    [this], once. If the delegate throws, the constructor throws the same
    and writes nothing more; if it returns, whatever it returns, the result
    is that fresh object and its [name] is [azure], also when the delegate
    had given it a name of its own. *)
Theorem Strategy_names_azure D verify w tr l c :
  heap w !! l = Some c →
  primitive (cell_get c "tenantID") = true →
  (∀ this o v w0 (l0 : loc),
     is_Some (heap w0 !! l0) → is_Some (heap (D this o v w0).2 !! l0)) →
  ∃ t wd, heap w !! t = None ∧
    (Strategy D (VRef l) verify (w, tr)).2.2
      = (tr ++ [Delegate (VRef t) (VRef l) verify wd])%list ∧
    match (D (VRef t) (VRef l) verify wd).1 with
    | Ok _ =>
        (Strategy D (VRef l) verify (w, tr)).1 = Ok (VRef t) ∧
        field (Strategy D (VRef l) verify (w, tr)).2.1 (VRef t) "name" = VString "azure"
    | Throw e =>
        (Strategy D (VRef l) verify (w, tr)).1 = Throw e ∧
        (Strategy D (VRef l) verify (w, tr)).2.1 = (D (VRef t) (VRef l) verify wd).2
    end.
Proof.
  intros Hl Hprim Hkeeps.
  destruct (Ctor.Strategy_run D verify w tr l c Hl Hprim) as (t & Ht & Hrun).
  cbn zeta in Hrun.
  set (wd := World (<[l := configured c]> (<[t := Cell None ∅]> (heap w))) (globals w)) in *.
  assert (t ≠ l) as Htl by (intros ->; congruence).
  exists t, wd. rewrite Hrun. cbn [fst snd]. split_and!; [done..|].
  pose proof (Hkeeps (VRef t) (VRef l) verify wd t) as Hlive.
  destruct (D (VRef t) (VRef l) verify wd) as [[v|e] wD]; cbn [fst snd] in *; [|done].
  split; [done|]. apply field_store_eq; [|done..].
  apply Hlive. cbn. rewrite lookup_insert_ne by done. by rewrite lookup_insert_eq.
Qed.

Lemma Strategy_names_azure_witness :
  ∃ t wd, heap (world_of options_tenant) !! t = None ∧
    (Strategy delegate_naming (VRef 1%positive) VNull (world_of options_tenant, [])).2.2
      = ([] ++ [Delegate (VRef t) (VRef 1%positive) VNull wd])%list ∧
    match (delegate_naming (VRef t) (VRef 1%positive) VNull wd).1 with
    | Ok _ =>
        (Strategy delegate_naming (VRef 1%positive) VNull (world_of options_tenant, [])).1
          = Ok (VRef t) ∧
        field (Strategy delegate_naming (VRef 1%positive) VNull
                 (world_of options_tenant, [])).2.1 (VRef t) "name" = VString "azure"
    | Throw e =>
        (Strategy delegate_naming (VRef 1%positive) VNull (world_of options_tenant, [])).1
          = Throw e ∧
        (Strategy delegate_naming (VRef 1%positive) VNull (world_of options_tenant, [])).2.1
          = (delegate_naming (VRef t) (VRef 1%positive) VNull wd).2
    end.
Proof.
  apply (Strategy_names_azure delegate_naming VNull (world_of options_tenant) []
           1%positive options_tenant); [reflexivity|reflexivity|].
  apply delegate_naming_keeps_objects.
Defined.

(** X4: whenever the tenant is primitive, the options the OAuth2 delegate
    receives are complete: their [authorizationURL], [tokenURL] and
    [scopeSeparator] are all truthy, whatever the caller supplied. *)
Theorem Strategy_hands_over_complete_options D verify w tr l c :
  heap w !! l = Some c →
  primitive (cell_get c "tenantID") = true →
  ∃ this wd,
    (Strategy D (VRef l) verify (w, tr)).2.2
      = (tr ++ [Delegate this (VRef l) verify wd])%list ∧
    truthy (field wd (VRef l) "authorizationURL") = true ∧
    truthy (field wd (VRef l) "tokenURL") = true ∧
    truthy (field wd (VRef l) "scopeSeparator") = true.
Proof.
  intros Hl Hprim.
  destruct (Ctor.Strategy_run D verify w tr l c Hl Hprim) as (t & Ht & Hrun).
  cbn zeta in Hrun. rewrite Hrun. cbn [snd].
  eexists _, _. split; [reflexivity|]. rewrite !Ctor.field_top.
  destruct (Ctor.configured_fields c) as (-> & -> & ->).
  split_and!; [apply derived_url_truthy..|apply separator_truthy].
Qed.

Lemma Strategy_hands_over_complete_options_witness :
  ∃ this wd,
    (Strategy delegate_stub (VRef 1%positive) VNull (world_of options_empty_strings, [])).2.2
      = ([] ++ [Delegate this (VRef 1%positive) VNull wd])%list ∧
    truthy (field wd (VRef 1%positive) "authorizationURL") = true ∧
    truthy (field wd (VRef 1%positive) "tokenURL") = true ∧
    truthy (field wd (VRef 1%positive) "scopeSeparator") = true.
Proof.
  apply (Strategy_hands_over_complete_options delegate_stub VNull
           (world_of options_empty_strings) [] 1%positive options_empty_strings);
    reflexivity.
Defined.

(** X15: options that are a truthy primitive (a non-empty string, a
    non-zero number, [true]) reach the OAuth2 delegate as they are: the
    three assignments to their properties are ignored, so no default is
    handed over, and nothing but the new strategy object is added to the
    heap. *)
Theorem Strategy_primitive_options D options verify w tr :
  primitive options = true → truthy options = true →
  ∃ t, heap w !! t = None ∧
    (Strategy D options verify (w, tr)).2.2
      = (tr ++ [Delegate (VRef t) options verify
                  (World (<[t := Cell None ∅]> (heap w)) (globals w))])%list.
Proof.
  intros Hprim Htruthy.
  enough (wp (Strategy D options verify) (w, tr) (λ _ st',
    ∃ t, heap w !! t = None ∧
      st'.2 = (tr ++ [Delegate (VRef t) options verify
                        (World (<[t := Cell None ∅]> (heap w)) (globals w))])%list))
    by done.
  assert (nullish options = false) as Hnn by (by destruct options).
  assert (∀ k w0, field w0 options k = VUndefined) as Hfield
    by (intros k w0; by destruct options).
  assert (∀ k v st (Q : outcome () → state → Prop),
            Q (Ok ()) st → wp (putv options k v) st Q) as Hput
    by (intros k v st Q HQ; by destruct options).
  unfold Strategy, new_object.
  apply wp_bind, wp_alloc. intros t Ht.
  apply wp_bind. unfold or_else at 1. rewrite Htruthy. apply wp_ret.
  apply wp_bind, wp_getv. rewrite Hnn, Hfield.
  apply wp_bind. unfold or_else at 1. cbn [truthy].
  apply wp_bind, wp_getv. rewrite Hnn, Hfield.
  apply wp_bind, wp_str_add; [done..|]. apply wp_str_add; [done..|].
  apply wp_bind, Hput.
  apply wp_bind, wp_getv. rewrite Hnn, Hfield.
  apply wp_bind. unfold or_else at 1. cbn [truthy].
  apply wp_bind, wp_getv. rewrite Hnn, Hfield.
  apply wp_bind, wp_str_add; [done..|]. apply wp_str_add; [done..|].
  apply wp_bind, Hput.
  apply wp_bind, wp_getv. rewrite Hnn, Hfield.
  apply wp_bind. unfold or_else at 1. cbn [truthy]. apply wp_ret.
  apply wp_bind, Hput.
  apply wp_bind, wp_call_delegate.
  destruct (D (VRef t) options verify _) as [[v|e] wD]; cbn [fst snd].
  - apply wp_bind, Ctor.wp_putv_store, wp_ret. by exists t.
  - by exists t.
Qed.

Lemma Strategy_primitive_options_witness :
  ∃ t, heap world_strategy !! t = None ∧
    (Strategy delegate_stub (VString "T") VNull (world_strategy, [])).2.2
      = ([] ++ [Delegate (VRef t) (VString "T") VNull
                  (World (<[t := Cell None ∅]> (heap world_strategy))
                         (globals world_strategy))])%list.
Proof.
  apply (Strategy_primitive_options delegate_stub (VString "T") VNull world_strategy []);
    reflexivity.
Defined.

End CtorMore.

(** ** An options object used for two strategies *)

Module Reuse.

(** X3: the URLs the constructor derives stay in the caller's options
    object. When the first construction's call of the delegate returns and
    has left the options object as it was, and the same object is then
    given another [tenantID] and used to construct a second strategy, the
    delegate sees the new tenant, but the URLs and the separator it
    receives are those of the first construction. *)
Theorem Strategy_reuse_keeps_first_urls D verify1 verify2 tenant2 w tr l c :
  heap w !! l = Some c →
  primitive (cell_get c "tenantID") = true →
  primitive tenant2 = true →
  ∃ t1 wd1,
    heap w !! t1 = None ∧
    (Strategy D (VRef l) verify1 (w, tr)).2.2
      = (tr ++ [Delegate (VRef t1) (VRef l) verify1 wd1])%list ∧
    ∀ v, (D (VRef t1) (VRef l) verify1 wd1).1 = Ok v →
         heap (D (VRef t1) (VRef l) verify1 wd1).2 !! l = heap wd1 !! l →
      ∃ this2 wd2,
        ((Strategy D (VRef l) verify1;;
          putv (VRef l) "tenantID" tenant2;;
          Strategy D (VRef l) verify2) (w, tr)).2.2
          = (tr ++ [Delegate (VRef t1) (VRef l) verify1 wd1;
                    Delegate this2 (VRef l) verify2 wd2])%list ∧
        field wd2 (VRef l) "tenantID" = tenant2 ∧
        field wd2 (VRef l) "authorizationURL"
          = derived_url c "authorizationURL" "/oauth2/authorize?api-version=1.0" ∧
        field wd2 (VRef l) "tokenURL"
          = derived_url c "tokenURL" "/oauth2/token?api-version=1.0" ∧
        (∀ k, k ∈ config_keys → field wd2 (VRef l) k = field wd1 (VRef l) k).
Proof.
  intros Hl Hprim Hprim2.
  destruct (Ctor.Strategy_run D verify1 w tr l c Hl Hprim)
    as (t1 & Ht1 & Hrun1).
  cbn zeta in Hrun1.
  set (wd1 := World (<[l := configured c]> (<[t1 := Cell None ∅]> (heap w))) (globals w)) in *.
  assert (t1 ≠ l) as Htl by (intros ->; congruence).
  exists t1, wd1. split_and!; [done|by rewrite Hrun1|].
  intros r1 Hr1 Hkept.
  rewrite Hr1 in Hrun1.
  set (w1 := store t1 "name" (VString "azure") (D (VRef t1) (VRef l) verify1 wd1).2)
    in *.
  assert (heap w1 !! l = Some (configured c)) as Hl1.
  { unfold w1. rewrite CtorMore.heap_store_ne by done. rewrite Hkept.
    apply lookup_insert_eq. }
  set (c2 := cell_put (configured c) "tenantID" tenant2).
  assert (store l "tenantID" tenant2 w1
          = World (<[l := c2]> (heap w1)) (globals w1)) as Hstore
    by (unfold store; by rewrite Hl1).
  assert (cell_get c2 "tenantID" = tenant2) as Htenant
    by (by apply Ctor.cell_get_put_eq).
  destruct (Ctor.Strategy_run D verify2
              (World (<[l := c2]> (heap w1)) (globals w1))
              (tr ++ [Delegate (VRef t1) (VRef l) verify1 wd1])%list l c2)
    as (t2 & Ht2 & Hrun2); [apply lookup_insert_eq|by rewrite Htenant|].
  cbn zeta in Hrun2. cbn [heap globals] in Hrun2.
  set (wd2 := World (<[l := configured c2]>
                       (<[t2 := Cell None ∅]> (<[l := c2]> (heap w1)))) (globals w1))
    in *.
  assert (∀ k, k ∈ config_keys → cell_get (configured c2) k = cell_get (configured c) k)
    as Hsame.
  { destruct (Ctor.configured_fields c) as (Ea & Eu & Es).
    destruct (Ctor.configured_fields c2) as (Ea2 & Eu2 & Es2).
    assert (∀ k, k ∈ config_keys → cell_get c2 k = cell_get (configured c) k) as Hc2.
    { intros k Hk. unfold c2. apply Ctor.cell_get_put_ne. intros <-.
      unfold config_keys in Hk.
      repeat (apply elem_of_cons in Hk as [?|Hk]; [done|]). by apply elem_of_nil in Hk. }
    intros k Hk. unfold config_keys in Hk.
    apply elem_of_cons in Hk as [->|Hk]; [|apply elem_of_cons in Hk as [->|Hk]];
      [| |apply list_elem_of_singleton in Hk as ->].
    - rewrite Ea2, CtorMore.derived_url_kept; rewrite Hc2, ?Ea;
        by (apply CtorMore.derived_url_truthy || (unfold config_keys; set_solver)).
    - rewrite Eu2, CtorMore.derived_url_kept; rewrite Hc2, ?Eu;
        by (apply CtorMore.derived_url_truthy || (unfold config_keys; set_solver)).
    - rewrite Es2. unfold separator at 1.
      rewrite Hc2 by (unfold config_keys; set_solver).
      rewrite Es. by rewrite CtorMore.separator_truthy. }
  enough (wp (Strategy D (VRef l) verify1;;
              putv (VRef l) "tenantID" tenant2;;
              Strategy D (VRef l) verify2) (w, tr)
            (λ _ st', st'.2 = (tr ++ [Delegate (VRef t1) (VRef l) verify1 wd1;
                                      Delegate (VRef t2) (VRef l) verify2 wd2])%list))
    as Hwp.
  { exists (VRef t2), wd2. split; [exact Hwp|].
    unfold wd1, wd2. rewrite !Ctor.field_top.
    destruct (Ctor.configured_fields c) as (Ea & Eu & Es).
    split_and!.
    - unfold configured. by rewrite !Ctor.cell_get_put_ne.
    - rewrite <- Ea. apply Hsame. unfold config_keys. set_solver.
    - rewrite <- Eu. apply Hsame. unfold config_keys. set_solver.
    - intros k Hk. rewrite !Ctor.field_top. by apply Hsame. }
  apply wp_bind. unfold wp at 1. rewrite Hrun1. cbn [fst snd].
  apply wp_bind, Ctor.wp_putv_store. rewrite Hstore.
  unfold wp. rewrite Hrun2. cbn [fst snd]. by rewrite <- app_assoc.
Qed.

Lemma Strategy_reuse_keeps_first_urls_witness :
  ∃ t1 wd1 this2 wd2,
    ((Strategy delegate_naming (VRef 1%positive) VNull;;
      putv (VRef 1%positive) "tenantID" (VString "U");;
      Strategy delegate_naming (VRef 1%positive) VNull) (world_of options_tenant, [])).2.2
      = ([] ++ [Delegate (VRef t1) (VRef 1%positive) VNull wd1;
                Delegate this2 (VRef 1%positive) VNull wd2])%list ∧
    field wd2 (VRef 1%positive) "tenantID" = VString "U" ∧
    field wd2 (VRef 1%positive) "authorizationURL"
      = derived_url options_tenant "authorizationURL" "/oauth2/authorize?api-version=1.0" ∧
    field wd2 (VRef 1%positive) "tokenURL"
      = derived_url options_tenant "tokenURL" "/oauth2/token?api-version=1.0" ∧
    (∀ k, k ∈ config_keys → field wd2 (VRef 1%positive) k = field wd1 (VRef 1%positive) k).
Proof.
  destruct (Strategy_reuse_keeps_first_urls delegate_naming VNull VNull (VString "U")
              (world_of options_tenant) [] 1%positive options_tenant
              eq_refl eq_refl eq_refl) as (t1 & wd1 & Ht1 & Htr1 & H).
  exists t1, wd1. apply (H VUndefined eq_refl).
  apply CtorMore.heap_store_ne. intros ->. vm_compute in Ht1. discriminate Ht1.
Defined.

(** The second delegate call of the example is handed the first tenant's
    URL. *)
Lemma Strategy_reuse_example :
  ∃ st wd,
    (Strategy delegate_naming (VRef 1%positive) VNull;;
     putv (VRef 1%positive) "tenantID" (VString "U");;
     Strategy delegate_naming (VRef 1%positive) VNull) (world_of options_tenant, []) = st ∧
    last st.2.2 = Some (Delegate (VRef 3%positive) (VRef 1%positive) VNull wd) ∧
    field wd (VRef 1%positive) "tenantID" = VString "U" ∧
    field wd (VRef 1%positive) "authorizationURL"
      = VString "https://login.windows.net/T/oauth2/authorize?api-version=1.0".
Proof. eexists _, _. split; [reflexivity|]. by vm_compute. Qed.

End Reuse.

(** ** The hooks taken together *)

Module Hooks.

(** X13: on the same options, the token request carries the [resource]
    parameter exactly when the authorization request does, with the same
    value, and carries nothing else. *)
Theorem tokenParams_agrees_with_authorizationParams w tr options :
  nullish options = false → live w options →
  ∃ pa ma pt mt,
    authorizationParams options (w, tr) =
      (Ok (VRef pa), (World (<[pa := Cell None ma]> (heap w)) (globals w), tr)) ∧
    tokenParams options (w, tr) =
      (Ok (VRef pt), (World (<[pt := Cell None mt]> (heap w)) (globals w), tr)) ∧
    ∀ k, mt !! k = if String.eqb k "resource" then ma !! k else None.
Proof.
  intros Hnn Hlive.
  destruct (Params.authorizationParams_run w tr options Hnn Hlive) as (pa & _ & Ha).
  destruct (Params.tokenParams_run w tr options Hnn Hlive) as (pt & _ & Ht).
  eexists pa, _, pt, _. split_and!; [exact Ha|exact Ht|].
  intros k. rewrite Params.pick_lookup. unfold pick.
  destruct (String.eqb_spec k "resource") as [->|Hne].
  - rewrite bool_decide_eq_true_2 by (unfold hint_keys; set_solver).
    destruct (truthy (field w options "resource")); by simplify_map_eq.
  - destruct (truthy (field w options "resource")); by simplify_map_eq.
Qed.

Lemma tokenParams_agrees_with_authorizationParams_witness :
  ∃ pa ma pt mt,
    authorizationParams (VRef 1%positive) (world_of options_resource, []) =
      (Ok (VRef pa),
       (World (<[pa := Cell None ma]> (heap (world_of options_resource)))
              (globals (world_of options_resource)), [])) ∧
    tokenParams (VRef 1%positive) (world_of options_resource, []) =
      (Ok (VRef pt),
       (World (<[pt := Cell None mt]> (heap (world_of options_resource)))
              (globals (world_of options_resource)), [])) ∧
    ∀ k, mt !! k = if String.eqb k "resource" then ma !! k else None.
Proof.
  apply (tokenParams_agrees_with_authorizationParams (world_of options_resource) []
           (VRef 1%positive)); [reflexivity|]. by eexists.
Defined.

(** X16: [authorizationParams] applied to its own result gives a new
    object with the same properties: what it returns holds hints only, all
    truthy. *)
Theorem authorizationParams_idempotent w tr options :
  nullish options = false → live w options →
  ∃ p m p',
    p' ≠ p ∧
    authorizationParams options (w, tr) =
      (Ok (VRef p), (World (<[p := Cell None m]> (heap w)) (globals w), tr)) ∧
    authorizationParams (VRef p) (World (<[p := Cell None m]> (heap w)) (globals w), tr) =
      (Ok (VRef p'),
       (World (<[p' := Cell None m]> (<[p := Cell None m]> (heap w))) (globals w), tr)).
Proof.
  intros Hnn Hlive.
  destruct (Params.authorizationParams_run w tr options Hnn Hlive) as (p & Hp & Ha).
  set (m := foldl (pick w options) ∅ hint_keys) in *.
  set (w1 := World (<[p := Cell None m]> (heap w)) (globals w)) in *.
  destruct (Params.authorizationParams_run w1 tr (VRef p)) as (p' & Hp' & Ha');
    [done|by (cbn; rewrite lookup_insert_eq)|].
  exists p, m, p'. split_and!; [|done|].
  { intros ->. cbn in Hp'. by rewrite lookup_insert_eq in Hp'. }
  fold w1. rewrite Ha'.
  enough (foldl (pick w1 (VRef p)) ∅ hint_keys = m) as -> by done.
  apply map_eq. intros k. rewrite Params.pick_lookup.
  unfold w1. rewrite Ctor.field_top. unfold cell_get. cbn [elems props].
  unfold m. rewrite Params.pick_lookup.
  destruct (bool_decide (k ∈ hint_keys)); [|done].
  destruct (truthy (field w options k)) eqn:E; cbn; by rewrite ?E.
Qed.

Lemma authorizationParams_idempotent_witness :
  ∃ p m p',
    p' ≠ p ∧
    authorizationParams (VRef 1%positive) (world_of options_hints, []) =
      (Ok (VRef p),
       (World (<[p := Cell None m]> (heap (world_of options_hints)))
              (globals (world_of options_hints)), [])) ∧
    authorizationParams (VRef p)
      (World (<[p := Cell None m]> (heap (world_of options_hints)))
             (globals (world_of options_hints)), []) =
      (Ok (VRef p'),
       (World (<[p' := Cell None m]>
                 (<[p := Cell None m]> (heap (world_of options_hints))))
              (globals (world_of options_hints)), [])).
Proof.
  apply (authorizationParams_idempotent (world_of options_hints) [] (VRef 1%positive));
    [reflexivity|]. by eexists.
Defined.

End Hooks.
